(** * sscgl: the answer-key parser and the question segmenter

    A shallow embedding of [ssc_pdf_to_quiz_json.py]: the line classifiers
    (the five compiled patterns), [parse_answers], [parse_questions] with its
    inner [flush], and the helpers they call.

    Text.  A Python [str] is modelled as a [string] of 7-bit characters.
    The character classes below are the ones the patterns and the [str]
    methods use on that range: the pattern class [\s] is
    {TAB, LF, VT, FF, CR, SPACE}; [str.strip] and [str.isspace] also count
    the four separators 0x1C..0x1F; [\d] is 0..9; [upper] and [lower] move
    the 26 letters only.

    Numbers.  Python's [int] is [Z].  The answer map is a [dict] keyed by
    question number: a [gmap Z (string * string)]. *)

From Stdlib Require Import ZArith NArith Ascii String DecimalString.
From stdpp Require Import gmap strings list.

Local Open Scope string_scope.
Local Open Scope list_scope.
Local Open Scope Z_scope.

(** ** Characters *)

Definition ord (c : ascii) : N := N_of_ascii c.

Definition in_range (lo hi : N) (c : ascii) : bool :=
  ((lo <=? ord c) && (ord c <=? hi))%N.

(** The pattern class [\s]. *)
Definition re_space (c : ascii) : bool :=
  in_range 9 13 c || (ord c =? 32)%N.

(** [str.isspace], the class [str.strip] removes. *)
Definition py_space (c : ascii) : bool :=
  re_space c || in_range 28 31 c.

(** The pattern class [\d]. *)
Definition re_digit (c : ascii) : bool := in_range 48 57 c.

Definition upper_char (c : ascii) : ascii :=
  if in_range 97 122 c then ascii_of_N (ord c - 32) else c.

Definition lower_char (c : ascii) : ascii :=
  if in_range 65 90 c then ascii_of_N (ord c + 32) else c.

(** The class [[a-dA-D]]. *)
Definition is_abcd (c : ascii) : bool :=
  in_range 97 100 c || in_range 65 68 c.

Definition newline : ascii := ascii_of_N 10.

(** ** String methods *)

Fixpoint smap (f : ascii -> ascii) (s : string) : string :=
  match s with
  | EmptyString => EmptyString
  | String c t => String (f c) (smap f t)
  end.

(** [s.upper()] and [s.lower()] on 7-bit text, where only the 26 letters
    have another case; [seven_bit] below names that range. *)
Definition upper (s : string) : string := smap upper_char s.
Definition lower (s : string) : string := smap lower_char s.

(** [s.replace(a, b)] for one-character [a] and [b]. *)
Definition replace_char (a b : ascii) (s : string) : string :=
  smap (fun c => if Ascii.eqb c a then b else c) s.

(** [s.startswith(p)]. *)
Definition startswith (p s : string) : bool := String.prefix p s.

(** [needle in hay]. *)
Fixpoint contains (needle hay : string) : bool :=
  String.prefix needle hay ||
  match hay with
  | EmptyString => false
  | String _ t => contains needle t
  end.

Fixpoint drop_while (p : ascii -> bool) (s : string) : string :=
  match s with
  | EmptyString => EmptyString
  | String c t => if p c then drop_while p t else s
  end.

Fixpoint take_while (p : ascii -> bool) (s : string) : string :=
  match s with
  | EmptyString => EmptyString
  | String c t => if p c then String c (take_while p t) else EmptyString
  end.

Fixpoint sall (p : ascii -> bool) (s : string) : bool :=
  match s with
  | EmptyString => true
  | String c t => p c && sall p t
  end.

Definition is_empty (s : string) : bool :=
  match s with EmptyString => true | _ => false end.

Definition lstrip (s : string) : string := drop_while py_space s.

Fixpoint rstrip (s : string) : string :=
  match s with
  | EmptyString => EmptyString
  | String c t =>
      let r := rstrip t in
      if is_empty r && py_space c then EmptyString else String c r
  end.

(** [s.strip()]. *)
Definition strip (s : string) : string := rstrip (lstrip s).

(** [rex.sub(r"\s+", " ", s)]: every maximal run of [\s] becomes one
    space.  [in_run] tells that the previous character was in a run. *)
Fixpoint sub_ws (in_run : bool) (s : string) : string :=
  match s with
  | EmptyString => EmptyString
  | String c t =>
      if re_space c
      then (if in_run then sub_ws true t else String " " (sub_ws true t))
      else String c (sub_ws false t)
  end.

Definition clean (t : string) : string := strip (sub_ws false t).

(** [sep.join(parts)]. *)
Definition join (sep : string) (parts : list string) : string :=
  String.concat sep parts.

(** [int(ds)] on a string of decimal digits. *)
Fixpoint int_acc (acc : Z) (ds : string) : Z :=
  match ds with
  | EmptyString => acc
  | String c t => int_acc (10 * acc + (Z.of_N (ord c) - 48)) t
  end.

Definition int_of (ds : string) : Z := int_acc 0 ds.

Fixpoint zeros (n : nat) : string :=
  match n with
  | O => EmptyString
  | S k => String "0" (zeros k)
  end.

(** [format(n, "03d")]: sign, then zeros up to a total width of three, then
    the decimal digits. *)
Definition format_03d (n : Z) : string :=
  let ds := NilZero.string_of_uint (N.to_uint (Z.abs_N n)) in
  let sign := if n <? 0 then "-" else "" in
  sign +:+ zeros (3 - String.length sign - String.length ds) +:+ ds.

(** ** The compiled patterns

    Each pattern is written as the matcher the backtracking engine runs for
    it: a function from the text at the current position to the captured
    groups (or to the text left after the match).  Where a greedy
    repetition is followed by something its own class excludes, giving
    characters back can never help, and the matcher takes the whole run. *)

Definition nl : string := String newline EmptyString.

(** [.] matches every character except LF (no DOTALL flag). *)
Definition re_dot (c : ascii) : bool := negb (Ascii.eqb c newline).

(** A literal, compared case-insensitively (flag I), on 7-bit text: there
    a letter of the pattern matches its two cases and nothing else. *)
Fixpoint eat_ci (lit s : string) : option string :=
  match lit with
  | EmptyString => Some s
  | String a lit' =>
      match s with
      | String c s' =>
          if Ascii.eqb (lower_char c) (lower_char a) then eat_ci lit' s'
          else None
      | EmptyString => None
      end
  end.

Definition eat_char (a : ascii) (s : string) : option string :=
  match s with
  | String c s' => if Ascii.eqb c a then Some s' else None
  | EmptyString => None
  end.

(** [(\d{1,3})\.]: the run of digits in front must be one to three long
    and be followed by the period; the group and the text after the
    period. *)
Definition match_num13 (s : string) : option (string * string) :=
  let ds := take_while re_digit s in
  if ((1 <=? String.length ds) && (String.length ds <=? 3))%nat
  then r ← eat_char "." (drop_while re_digit s); Some (ds, r)
  else None.

(** [QNUM_RE]: [^(\d{1,3})\.\s*] and then, as group 2, a greedy run of
    [.]; used with [match].  Groups 1 and 2. *)
Definition QNUM_RE_match (txt : string) : option (string * string) :=
  '(ds, r) ← match_num13 txt;
  Some (ds, take_while re_dot (drop_while re_space r)).

(** [\s*(.+)] at the end of [OPTION_RE]: the greedy [\s*] gives characters
    back until [.+] finds one character to start on. *)
Fixpoint ws_then_dot_plus (s : string) : option string :=
  match s with
  | EmptyString => None
  | String c t =>
      if re_space c then
        match ws_then_dot_plus t with
        | Some g => Some g
        | None => if re_dot c then Some (take_while re_dot s) else None
        end
      else Some (take_while re_dot s)
  end.

(** [OPTION_RE = ^(?:[a-dA-D][\.\)]|[a-dA-D]\s)\s*(.+)], used with
    [match]; group 1. *)
Definition OPTION_RE_match (txt : string) : option string :=
  match txt with
  | String c0 (String c1 r) =>
      if is_abcd c0 &&
         (Ascii.eqb c1 "." || Ascii.eqb c1 ")" || re_space c1)
      then ws_then_dot_plus r
      else None
  | _ => None
  end.

Definition opt_plus (a : ascii) (s : string) : string :=
  match eat_char a s with Some r => r | None => s end.

(** [\d+]. *)
Definition digits_plus (s : string) : option string :=
  match s with
  | String c t => if re_digit c then Some (drop_while re_digit t) else None
  | EmptyString => None
  end.

(** [(\.\d+)?]. *)
Definition opt_fraction (s : string) : string :=
  match eat_char "." s ≫= digits_plus with Some r => r | None => s end.

(** [MARKS_RE = \(\s*\+?\d+\s*,\s*-\s*\d+(\.\d+)?\s*\)] at one position. *)
Definition marks_at (s : string) : bool :=
  bool_decide (is_Some (
    r ← eat_char "(" s;
    r ← digits_plus (opt_plus "+" (drop_while re_space r));
    r ← eat_char "," (drop_while re_space r);
    r ← eat_char "-" (drop_while re_space r);
    r ← digits_plus (drop_while re_space r);
    eat_char ")" (drop_while re_space (opt_fraction r)))).

(** [pattern.search]: the first position from the left where the pattern
    matches. *)
Fixpoint search (m : string -> bool) (s : string) : bool :=
  m s || match s with
         | EmptyString => false
         | String _ t => search m t
         end.

Definition MARKS_RE_search (txt : string) : bool := search marks_at txt.

(** [ANS_LINE_RE = ^\s*(\d{1,3})\.\s*Answer\s*:\s*([A-D])\s*$], flag I, used
    with [match]; groups 1 and 2.  After the greedy [\s*] the anchor [$]
    holds exactly when nothing but [\s] is left. *)
Definition ANS_LINE_RE_match (txt : string) : option (string * string) :=
  '(ds, r) ← match_num13 (drop_while re_space txt);
  r ← eat_ci "Answer" (drop_while re_space r);
  r ← eat_char ":" (drop_while re_space r);
  match drop_while re_space r with
  | String c r' =>
      if is_abcd c && sall re_space r'
      then Some (ds, String c EmptyString)
      else None
  | EmptyString => None
  end.

(** [EXPL_HDR_RE = ^\s*Explanation\s*:\s*$], flag I, used with [match]. *)
Definition EXPL_HDR_RE_match (txt : string) : bool :=
  bool_decide (is_Some (
    r ← eat_ci "Explanation" (drop_while re_space txt);
    r ← eat_char ":" (drop_while re_space r);
    if sall re_space r then Some r else None)).

(** ** Configuration *)

Definition SECTION_HEADERS : list (string * string) :=
  [ ("GENERAL INTELLIGENCE AND REASONING", "General Intelligence and Reasoning");
    ("GENERAL AWARENESS", "General Awareness");
    ("QUANTITATIVE APTITUDE", "Quantitative Aptitude");
    ("ENGLISH COMPREHENSION", "English Comprehension") ].

(** ** Models *)

Record OptionObj := mkOption {
  key : string;
  en : string;
  hi : string;
  image : string
}.

Record QuestionObj := mkQuestion {
  q_id : string;
  qnum : Z;
  subject : string;
  topic : string;
  subtopic : option string;
  difficulty : string;
  q_en : string;
  q_hi : string;
  q_image : string;
  options : list OptionObj;
  answer : string;
  explanation_en : string;
  explanation_hi : string;
  explanation_image : string;
  assets : list string;
  source : string;
  tags : list string
}.

(** A line: page index and text. *)
Abbreviation line := (Z * string)%type.

(** ** Helpers *)

Fixpoint first_header (table : list (string * string)) (L : string)
  : option string :=
  match table with
  | [] => None
  | (k, v) :: rest => if contains k L then Some v else first_header rest L
  end.

Definition detect_section (ln : string) : option string :=
  first_header SECTION_HEADERS (upper (clean ln)).

Definition guess_topic_from_text (subject q_text : string)
  : string * option string :=
  let ql := lower q_text in
  if String.eqb subject "Quantitative Aptitude" then
    if contains "triangle" ql then ("Geometry", Some "Triangles")
    else if contains "average" ql then ("Averages", None)
    else if contains "ratio" ql then ("Ratio & Proportion", None)
    else (subject, None)
  else (subject, None).

(** [.*?] in front of the continuation [k], with flag S: the shortest
    stretch of arbitrary characters after which [k] succeeds. *)
Fixpoint lazy_any (k : string -> option string) (s : string)
  : option string :=
  match k s with
  | Some r => Some r
  | None =>
      match s with
      | EmptyString => None
      | String _ t => lazy_any k t
      end
  end.

(** [\s+]. *)
Definition ws_plus (s : string) : option string :=
  match s with
  | String c t => if re_space c then Some (drop_while re_space t) else None
  | EmptyString => None
  end.

(** [\d{4}]. *)
Definition digits4 (s : string) : option string :=
  match s with
  | String a (String b (String c (String d t))) =>
      if re_digit a && re_digit b && re_digit c && re_digit d
      then Some t else None
  | _ => None
  end.

(** [SSC\s+CGL.*?Tier.*?\d{4}.*?Shift\s*\d+], flags I and S, at one
    position; the text left after the match. *)
Definition source_at (s : string) : option string :=
  r ← eat_ci "SSC" s;
  r ← ws_plus r;
  r ← eat_ci "CGL" r;
  lazy_any (λ r,
    r ← eat_ci "Tier" r;
    lazy_any (λ r,
      r ← digits4 r;
      lazy_any (λ r,
        r ← eat_ci "Shift" r;
        digits_plus (drop_while re_space r)) r) r) r.

(** [rex.search] of that pattern; group 1 is the matched text. *)
Fixpoint source_search (s : string) : option string :=
  match source_at s with
  | Some r => Some (substring 0 (String.length s - String.length r) s)
  | None =>
      match s with
      | EmptyString => None
      | String _ t => source_search t
      end
  end.

Definition extract_source_header (pages_text : list string) : string :=
  let blob := join nl (take 2 pages_text) in
  match source_search blob with
  | Some g => clean g
  | None => "SSC CGL Question Paper"
  end.

(** ** Answer parser *)

(** The index of the first line whose uppercased text starts with
    "ANSWERS" (the [for]/[break] scan), counting from [i]. *)
Fixpoint find_marker (i : nat) (lines : list line) : option nat :=
  match lines with
  | [] => None
  | (_, txt) :: rest =>
      if startswith "ANSWERS" (upper txt) then Some i
      else find_marker (S i) rest
  end.

(** The local variables of [parse_answers] that the [while] loop updates. *)
Record pa_state := mkPA {
  pa_ans_map : gmap Z (string * string);
  pa_i : nat;
  pa_current_q : option Z;
  pa_current_ans : string;
  pa_collecting : bool;
  pa_expl_buf : list string
}.

(** The paths through one iteration of the loop body. *)
Inductive pa_branch :=
  | BrAnswer (g1 g2 : string)  (* the answer line: commit, advance *)
  | BrHeader                   (* the explanation header: advance *)
  | BrStall                    (* [continue] without advancing *)
  | BrCollect                  (* collecting: buffer the line, advance *)
  | BrSkip.                    (* not collecting: advance *)

Definition pa_branch_of (txt : string) (st : pa_state) : pa_branch :=
  match ANS_LINE_RE_match txt with
  | Some (g1, g2) => BrAnswer g1 g2
  | None =>
      if EXPL_HDR_RE_match txt then BrHeader
      else if pa_collecting st then
        (if bool_decide (is_Some (ANS_LINE_RE_match txt)) then BrStall
         else BrCollect)
      else BrSkip
  end.

(** [ans_map[q] = (current_ans, clean(" ".join(expl_buf)))]. *)
Definition commit (q : Z) (st : pa_state) : gmap Z (string * string) :=
  <[q := (pa_current_ans st, clean (join " " (pa_expl_buf st)))]>
    (pa_ans_map st).

(** One iteration of the loop body on [lines[i] = (_, txt)]. *)
Definition pa_body (txt : string) (st : pa_state) : pa_state :=
  match pa_branch_of txt st with
  | BrAnswer g1 g2 =>
      {| pa_ans_map :=
           match pa_current_q st with
           | Some q => commit q st
           | None => pa_ans_map st
           end;
         pa_i := S (pa_i st);
         pa_current_q := Some (int_of g1);
         pa_current_ans := upper g2;
         pa_collecting := false;
         pa_expl_buf :=
           match pa_current_q st with
           | Some _ => []
           | None => pa_expl_buf st
           end |}
  | BrHeader =>
      {| pa_ans_map := pa_ans_map st;
         pa_i := S (pa_i st);
         pa_current_q := pa_current_q st;
         pa_current_ans := pa_current_ans st;
         pa_collecting := true;
         pa_expl_buf := pa_expl_buf st |}
  | BrStall => st
  | BrCollect =>
      {| pa_ans_map := pa_ans_map st;
         pa_i := S (pa_i st);
         pa_current_q := pa_current_q st;
         pa_current_ans := pa_current_ans st;
         pa_collecting := pa_collecting st;
         pa_expl_buf :=
           if is_empty (strip txt) then pa_expl_buf st
           else pa_expl_buf st ++ [strip txt] |}
  | BrSkip =>
      {| pa_ans_map := pa_ans_map st;
         pa_i := S (pa_i st);
         pa_current_q := pa_current_q st;
         pa_current_ans := pa_current_ans st;
         pa_collecting := pa_collecting st;
         pa_expl_buf := pa_expl_buf st |}
  end.

(** [while i < len(lines)]: [None] when [fuel] iterations did not reach the
    end of the list. *)
Fixpoint pa_while (fuel : nat) (lines : list line) (st : pa_state)
  : option pa_state :=
  match lines !! pa_i st with
  | None => Some st
  | Some (_, txt) =>
      match fuel with
      | O => None
      | S fuel' => pa_while fuel' lines (pa_body txt st)
      end
  end.

Definition pa_init (idx : nat) : pa_state :=
  {| pa_ans_map := ∅; pa_i := S idx; pa_current_q := None;
     pa_current_ans := ""; pa_collecting := false; pa_expl_buf := [] |}.

(** The commit after the loop: only when the number is not in the map. *)
Definition pa_final (st : pa_state) : gmap Z (string * string) :=
  match pa_current_q st with
  | Some q =>
      match pa_ans_map st !! q with
      | None => commit q st
      | Some _ => pa_ans_map st
      end
  | None => pa_ans_map st
  end.

Definition parse_answers_fuel (fuel : nat) (lines : list line)
  : option (gmap Z (string * string)) :=
  match find_marker 0 lines with
  | None => Some ∅
  | Some idx => pa_final <$> pa_while fuel lines (pa_init idx)
  end.

(** [parse_answers], run with one unit of fuel per line. *)
Definition parse_answers (lines : list line) : gmap Z (string * string) :=
  default ∅ (parse_answers_fuel (length lines) lines).

(** ** Question parser *)

(** The variables of [parse_questions] that [flush] and the [for] loop
    read and update. *)
Record seg_state := mkSeg {
  questions : list QuestionObj;
  current_subject : option string;
  current_qnum : option Z;
  current_qtext : string;
  current_opts : list OptionObj
}.

Definition seg_init : seg_state :=
  {| questions := []; current_subject := None; current_qnum := None;
     current_qtext := ""; current_opts := [] |}.

(** The texts of the lines of page [p], in order
    ([pages_text.get(p, [])]). *)
Definition page_lines (p : Z) (lines : list line) : list string :=
  snd <$> filter (λ l : line, l.1 = p) lines.

Definition source_of (lines : list line) : string :=
  extract_source_header
    [join nl (page_lines 0 lines); join nl (page_lines 1 lines)].

Section Segmenter.

Variable ans_map : gmap Z (string * string).
Variable src : string.

(** The record [flush] builds for question number [n]. *)
Definition make_question (n : Z) (st : seg_state) : QuestionObj :=
  let subj := default "General" (current_subject st) in
  let tt := guess_topic_from_text subj (current_qtext st) in
  let ae := default ("", "") (ans_map !! n) in
  {| q_id := "SSC-CGL-2024-Shift-1-Q" +:+ format_03d n;
     qnum := n;
     subject := subj;
     topic := tt.1;
     subtopic := tt.2;
     difficulty := "medium";
     q_en := clean (current_qtext st);
     q_hi := "";
     q_image := "";
     options := current_opts st;
     answer := ae.1;
     explanation_en := ae.2;
     explanation_hi := "";
     explanation_image := "";
     assets := [];
     source := src;
     tags := ["pyq"; "bilingual"; replace_char " " "-" (lower subj)] |}.

(** [flush()]: the list [questions] after the call. *)
Definition flush (st : seg_state) : list QuestionObj :=
  match current_qnum st with
  | None => questions st
  | Some n => questions st ++ [make_question n st]
  end.

(** The option a matching line adds: [raw = txt.strip()],
    [key = raw[0].upper()], text [clean(m_opt.group(1))].  [raw[0]] is
    the first character of [raw]; on a line the option pattern matches
    [raw] is never empty ([option_raw_first] below). *)
Definition make_option (txt g : string) : OptionObj :=
  let raw := strip txt in
  {| key := upper (substring 0 1 raw); en := clean g;
     hi := ""; image := "" |}.

(** The body of the [for] loop, on one line's text. *)
Definition seg_step (st : seg_state) (txt : string) : seg_state :=
  match detect_section txt with
  | Some sec =>
      {| questions := flush st; current_subject := Some sec;
         current_qnum := None; current_qtext := ""; current_opts := [] |}
  | None =>
      match QNUM_RE_match txt with
      | Some (g1, g2) =>
          {| questions := flush st;
             current_subject := current_subject st;
             current_qnum := Some (int_of g1);
             current_qtext := strip g2;
             current_opts := [] |}
      | None =>
          match current_qnum st with
          | None => st
          | Some _ =>
              match OPTION_RE_match txt with
              | Some g =>
                  {| questions := questions st;
                     current_subject := current_subject st;
                     current_qnum := current_qnum st;
                     current_qtext := current_qtext st;
                     current_opts :=
                       current_opts st ++ [make_option txt g] |}
              | None =>
                  if MARKS_RE_search txt then st
                  else if negb (is_empty txt)
                          && negb (bool_decide (is_Some (detect_section txt)))
                          && negb (bool_decide (is_Some (QNUM_RE_match txt)))
                          && negb (startswith "ANSWERS" (upper txt))
                          && negb (bool_decide (is_Some (OPTION_RE_match txt)))
                  then
                    {| questions := questions st;
                       current_subject := current_subject st;
                       current_qnum := current_qnum st;
                       current_qtext := current_qtext st +:+ " " +:+ txt;
                       current_opts := current_opts st |}
                  else st
              end
          end
      end
  end.

(** The [for] loop over all lines. *)
Definition seg_run (st : seg_state) (lines : list line) : seg_state :=
  fold_left (λ s (l : line), seg_step s l.2) lines st.

End Segmenter.

Definition parse_questions (lines : list line)
    (ans_map : gmap Z (string * string)) : list QuestionObj :=
  flush ans_map (source_of lines)
    (seg_run ans_map (source_of lines) seg_init lines).

(** [main] without the file reading and writing: both passes over the same
    lines. *)
Definition pipeline (lines : list line)
  : gmap Z (string * string) * list QuestionObj :=
  let ans_map := parse_answers lines in
  (ans_map, parse_questions lines ans_map).

(** The lines of a document given as texts only, all on page 0. *)
Definition on_page0 (texts : list string) : list line :=
  (λ t, (0, t)) <$> texts.

(** ** The inputs of the scenarios *)

Definition scenario_lines : list line :=
  on_page0 [ "GENERAL AWARENESS"; "1. What is 2+2?"; "A. 3"; "B. 4";
             "(+2,-0.5)"; "ANSWERS"; "1. Answer: B"; "Explanation:";
             "Basic arithmetic." ].

(** An answer section that gives question 1 twice before question 2. *)
Definition repeated_answer_lines : list line :=
  on_page0 [ "ANSWERS"; "1. Answer: A"; "1. Answer: B"; "2. Answer: C" ].

(** The same annotation after the question's opening text and, later, on a
    line of its own. *)
Definition inline_marks_lines : list line :=
  on_page0 [ "1. Capital of India? (+2, -0.5)"; "A. Delhi"; "(+2, -0.5)" ].

(** A numbered section heading. *)
Definition numbered_header_lines : list line :=
  on_page0 [ "2. QUANTITATIVE APTITUDE"; "1. What is 2+2?" ].

(** ** Specification-side vocabulary *)

(** A line that ends the question in progress. *)
Definition is_boundary (txt : string) : Prop :=
  is_Some (detect_section txt) ∨ is_Some (QNUM_RE_match txt).

(** A line that starts a question: it matches the question-start pattern
    and is not taken as a section header first. *)
Definition is_qstart (txt : string) : bool :=
  bool_decide (detect_section txt = None ∧ is_Some (QNUM_RE_match txt)).

Definition is_option_line (txt : string) : bool :=
  bool_decide (is_Some (OPTION_RE_match txt)).

(** A line that is appended to the text of the question in progress. *)
Definition is_continuation (txt : string) : bool :=
  negb (is_option_line txt) && negb (MARKS_RE_search txt)
  && negb (is_empty txt) && negb (startswith "ANSWERS" (upper txt)).

(** The option an option line stands for: the key is the uppercased first
    character of the cleaned line. *)
Definition option_of (txt : string) : OptionObj :=
  {| key := upper (substring 0 1 (clean txt));
     en := clean (default "" (OPTION_RE_match txt));
     hi := ""; image := "" |}.

(** [s] followed by each of [ts], every one after a single space. *)
Definition append_all (s : string) (ts : list string) : string :=
  fold_left (λ acc t, acc +:+ " " +:+ t) ts s.

Definition digit_of (d : Z) : ascii := ascii_of_N (48 + Z.to_N d).

(** [n] written with exactly three decimal digits. *)
Definition pad3 (n : Z) : string :=
  String (digit_of (n / 100))
    (String (digit_of (n / 10 mod 10))
       (String (digit_of (n mod 10)) EmptyString)).

(** The segmenter's loop over the texts of the lines. *)
Definition seg_texts (ans_map : gmap Z (string * string)) (src : string)
    (st : seg_state) (texts : list string) : seg_state :=
  fold_left (seg_step ans_map src) texts st.

Definition option_lines (seg : list string) : list string :=
  filter (λ t, is_option_line t = true) seg.

Definition continuation_lines (seg : list string) : list string :=
  filter (λ t, is_continuation t = true) seg.

(** The record of question [n] under subject [subj] with the accumulated
    text [qtext] and the options [opts]. *)
Definition question_of (ans_map : gmap Z (string * string)) (src : string)
    (subj : option string) (n : Z) (qtext : string)
    (opts : list OptionObj) : QuestionObj :=
  make_question ans_map src n
    {| questions := []; current_subject := subj; current_qnum := Some n;
       current_qtext := qtext; current_opts := opts |}.

(** Where a record comes from: a question-start line [qline] of the
    document, and the lines [seg] that follow it up to the next boundary
    line or the end of the document. *)
Definition built_from (ans_map : gmap Z (string * string)) (src : string)
    (texts : list string) (r : QuestionObj) : Prop :=
  ∃ pre qline seg post g1 g2 subj,
    texts = pre ++ qline :: seg ++ post
    ∧ detect_section qline = None
    ∧ QNUM_RE_match qline = Some (g1, g2)
    ∧ Forall (λ t, ¬ is_boundary t) seg
    ∧ (∀ t, head post = Some t → is_boundary t)
    ∧ r = question_of ans_map src subj (int_of g1)
            (append_all (strip g2) (continuation_lines seg))
            (option_of <$> option_lines seg).

(** The question in progress after the lines [read]. *)
Definition in_progress (read : list string) (st : seg_state) : Prop :=
  match current_qnum st with
  | None => True
  | Some n =>
      ∃ pre qline seg g1 g2,
        read = pre ++ qline :: seg
        ∧ detect_section qline = None
        ∧ QNUM_RE_match qline = Some (g1, g2)
        ∧ Forall (λ t, ¬ is_boundary t) seg
        ∧ n = int_of g1
        ∧ current_qtext st = append_all (strip g2) (continuation_lines seg)
        ∧ current_opts st = option_of <$> option_lines seg
  end.

(** The segmenter's invariant after the lines [read]. *)
Definition seg_inv (ans_map : gmap Z (string * string)) (src : string)
    (read : list string) (st : seg_state) : Prop :=
  (∀ r more, r ∈ questions st → built_from ans_map src (read ++ more) r)
  ∧ in_progress read st.

(** The record the scenario describes. *)
Definition scenario_record : QuestionObj :=
  {| q_id := "SSC-CGL-2024-Shift-1-Q001";
     qnum := 1;
     subject := "General Awareness";
     topic := "General Awareness";
     subtopic := None;
     difficulty := "medium";
     q_en := "What is 2+2?";
     q_hi := "";
     q_image := "";
     options := [ {| key := "A"; en := "3"; hi := ""; image := "" |};
                  {| key := "B"; en := "4"; hi := ""; image := "" |} ];
     answer := "B";
     explanation_en := "Basic arithmetic.";
     explanation_hi := "";
     explanation_image := "";
     assets := [];
     source := "SSC CGL Question Paper";
     tags := ["pyq"; "bilingual"; "general-awareness"] |}.

(** The record the segmenter builds from the scenario's answer section:
    the answer line is a question-start line to it. *)
Definition answer_section_record : QuestionObj :=
  {| q_id := "SSC-CGL-2024-Shift-1-Q001";
     qnum := 1;
     subject := "General Awareness";
     topic := "General Awareness";
     subtopic := None;
     difficulty := "medium";
     q_en := "Answer: B Explanation: Basic arithmetic.";
     q_hi := "";
     q_image := "";
     options := [];
     answer := "B";
     explanation_en := "Basic arithmetic.";
     explanation_hi := "";
     explanation_image := "";
     assets := [];
     source := "SSC CGL Question Paper";
     tags := ["pyq"; "bilingual"; "general-awareness"] |}.

(** A document without an answer section. *)
Definition unanswered_lines : list line :=
  on_page0 [ "QUANTITATIVE APTITUDE"; "1. The average of 3 and 5 is";
             "A. 4"; "B. 5" ].

Definition unanswered_record : QuestionObj :=
  {| q_id := "SSC-CGL-2024-Shift-1-Q001";
     qnum := 1;
     subject := "Quantitative Aptitude";
     topic := "Averages";
     subtopic := None;
     difficulty := "medium";
     q_en := "The average of 3 and 5 is";
     q_hi := "";
     q_image := "";
     options := [ {| key := "A"; en := "4"; hi := ""; image := "" |};
                  {| key := "B"; en := "5"; hi := ""; image := "" |} ];
     answer := "";
     explanation_en := "";
     explanation_hi := "";
     explanation_image := "";
     assets := [];
     source := "SSC CGL Question Paper";
     tags := ["pyq"; "bilingual"; "quantitative-aptitude"] |}.

(** The property of the reconstructed text, as the specification words
    it: no line that matches the scoring pattern occurs inside the text of
    any record. *)
Definition marks_lines_absent (lines : list line) : Prop :=
  ∀ (l : line) r,
    l ∈ lines → MARKS_RE_search l.2 = true →
    r ∈ (pipeline lines).2 →
    contains l.2 (q_en r) = false.

(** The record count, as the specification words it: one record per line
    that matches the question-start pattern. *)
Definition one_record_per_qnum_line (lines : list line) : Prop :=
  length (pipeline lines).2
  = length (filter (λ l : line, is_Some (QNUM_RE_match l.2)) lines).

(** ** The PDF reader *)

(** The line boundaries of [str.splitlines] on 7-bit text: LF, VT, FF, CR
    and the separators 0x1C..0x1E. *)
Definition is_linebreak (c : ascii) : bool :=
  in_range 10 13 c || in_range 28 30 c.

Definition carriage_return : ascii := ascii_of_N 13.

(** [s.splitlines()].  [cur] is the line read so far; [after_cr] tells
    that the previous character was a CR, which takes a directly following
    LF into the same line break.  A last line is returned only when it is
    not empty. *)
Fixpoint splitlines_from (cur : string) (after_cr : bool) (s : string)
  : list string :=
  match s with
  | EmptyString => if is_empty cur then [] else [cur]
  | String c t =>
      if after_cr && Ascii.eqb c newline then splitlines_from cur false t
      else if is_linebreak c
      then cur :: splitlines_from EmptyString (Ascii.eqb c carriage_return) t
      else splitlines_from (cur +:+ String c EmptyString) false t
  end.

Definition splitlines (s : string) : list string :=
  splitlines_from EmptyString false s.

(** The loop of [read_lines] over the pages from number [pno] on.  A page
    is given by what [page.extract_text] returns for it, [None] included
    (then the text is the empty string). *)
Fixpoint read_pages (pno : Z) (pages : list (option string)) : list line :=
  match pages with
  | [] => []
  | pg :: rest =>
      ((λ t, (pno, clean t)) <$> splitlines (default "" pg))
      ++ read_pages (pno + 1) rest
  end.

Definition read_lines (pages : list (option string)) : list line :=
  read_pages 0 pages.

(** ** The JSON builder *)

(** The values [to_dict] builds: [None], strings, lists and dicts (with
    their keys in insertion order). *)
#[warnings="-register-all"]
Inductive json :=
  | JNull
  | JStr (s : string)
  | JArr (items : list json)
  | JObj (fields : list (string * json)).

Definition option_to_dict (o : OptionObj) : json :=
  JObj [ ("key", JStr (key o)); ("hi", JStr (hi o));
         ("en", JStr (en o)); ("image", JStr (image o)) ].

Definition to_dict (q : QuestionObj) : json :=
  JObj [ ("id", JStr (q_id q));
         ("subject", JStr (subject q));
         ("topic", JStr (topic q));
         ("subtopic", match subtopic q with Some s => JStr s | None => JNull end);
         ("difficulty", JStr (difficulty q));
         ("q", JObj [ ("hi", JStr (q_hi q)); ("en", JStr (q_en q));
                      ("image", JStr (q_image q)) ]);
         ("options", JArr (option_to_dict <$> options q));
         ("answer", JStr (answer q));
         ("explanation", JObj [ ("hi", JStr (explanation_hi q));
                                ("en", JStr (explanation_en q));
                                ("image", JStr (explanation_image q)) ]);
         ("assets", JArr (JStr <$> assets q));
         ("source", JStr (source q));
         ("tags", JArr (JStr <$> tags q)) ].

(** What [main] hands to [json.dump]: the records of the document read
    from [pages], as dicts. *)
Definition main_dicts (pages : list (option string)) : list json :=
  let lines := read_lines pages in
  let ans_map := parse_answers lines in
  to_dict <$> parse_questions lines ans_map.

(** ** Vocabulary of the further properties *)

(** The values stored under the key [k] anywhere inside a JSON value. *)
Fixpoint values_at (k : string) (j : json) : list json :=
  match j with
  | JArr items => flat_map (values_at k) items
  | JObj fields =>
      flat_map (λ kv : string * json,
                  let '(k', v) := kv in
                  (if String.eqb k' k then [v] else []) ++ values_at k v)
        fields
  | _ => []
  end.

Definition boundaryb (t : string) : bool := bool_decide (is_boundary t).

(** The lines in front of the first boundary line. *)
Fixpoint body_of (texts : list string) : list string :=
  match texts with
  | [] => []
  | t :: rest => if boundaryb t then [] else t :: body_of rest
  end.

(** One question of the document: the subject in force, the two groups of
    its question-start line and the lines of its body. *)
Record segment := mkSegment {
  seg_subject : option string;
  seg_num : string;
  seg_rest : string;
  seg_body : list string
}.

(** The questions of a document, read off its lines from left to right:
    a section header sets the subject, a question-start line opens a
    question whose body runs up to the next boundary line. *)
Fixpoint segments (subj : option string) (texts : list string)
  : list segment :=
  match texts with
  | [] => []
  | t :: rest =>
      match detect_section t with
      | Some sec => segments (Some sec) rest
      | None =>
          match QNUM_RE_match t with
          | Some (g1, g2) =>
              {| seg_subject := subj; seg_num := g1; seg_rest := g2;
                 seg_body := body_of rest |} :: segments subj rest
          | None => segments subj rest
          end
      end
  end.

Definition record_of (ans_map : gmap Z (string * string)) (src : string)
    (s : segment) : QuestionObj :=
  question_of ans_map src (seg_subject s) (int_of (seg_num s))
    (append_all (strip (seg_rest s)) (continuation_lines (seg_body s)))
    (option_of <$> option_lines (seg_body s)).

(** A record without what the answer map contributes. *)
Definition without_answer (r : QuestionObj) : QuestionObj :=
  {| q_id := q_id r; qnum := qnum r; subject := subject r;
     topic := topic r; subtopic := subtopic r; difficulty := difficulty r;
     q_en := q_en r; q_hi := q_hi r; q_image := q_image r;
     options := options r; answer := ""; explanation_en := "";
     explanation_hi := explanation_hi r;
     explanation_image := explanation_image r; assets := assets r;
     source := source r; tags := tags r |}.

(** The loop of [parse_answers] as a fold over the lines it visits. *)
Definition pa_run (st : pa_state) (ls : list line) : pa_state :=
  fold_left (λ s (l : line), pa_body l.2 s) ls st.

(** The lines after the first answer-section marker. *)
Definition after_marker (lines : list line) : list line :=
  match find_marker 0 lines with
  | Some idx => drop (S idx) lines
  | None => []
  end.

(** The question numbers of the answer lines among [ls]. *)
Definition answer_numbers (ls : list line) : list Z :=
  omap (λ l : line, (λ g : string * string, int_of g.1)
                      <$> ANS_LINE_RE_match l.2) ls.

(** The numbers the answer parser has seen: those in the map and the
    pending one. *)
Definition pa_seen (st : pa_state) : gset Z :=
  dom (pa_ans_map st)
  ∪ match pa_current_q st with Some q => {[q]} | None => ∅ end.

Definition pa_set_i (k : nat) (st : pa_state) : pa_state :=
  {| pa_ans_map := pa_ans_map st; pa_i := k;
     pa_current_q := pa_current_q st; pa_current_ans := pa_current_ans st;
     pa_collecting := pa_collecting st; pa_expl_buf := pa_expl_buf st |}.

Definition is_letter (a : string) : Prop := a ∈ ["A"; "B"; "C"; "D"].

(** A well-formed entry of the answer map. *)
Definition entry_ok (n : Z) (v : string * string) : Prop :=
  0 ≤ n ≤ 999 ∧ is_letter v.1 ∧ clean v.2 = v.2.

Definition pa_ok (st : pa_state) : Prop :=
  map_Forall entry_ok (pa_ans_map st)
  ∧ ∀ q, pa_current_q st = Some q →
         0 ≤ q ≤ 999 ∧ is_letter (pa_current_ans st).

(** No [\s] but single spaces: [prev] tells that the character before
    was a [\s]. *)
Fixpoint spaced_ok (prev : bool) (s : string) : bool :=
  match s with
  | EmptyString => true
  | String c t =>
      if re_space c
      then Ascii.eqb c " " && negb prev && spaced_ok true t
      else spaced_ok false t
  end.

Definition first_ok (s : string) : bool :=
  match s with
  | EmptyString => true
  | String c _ => negb (py_space c)
  end.

(** Text of 7-bit characters only, the range on which [upper], [lower]
    and the case-insensitive patterns are the ones of the program. *)
Definition seven_bit (s : string) : bool :=
  sall (λ c, (ord c <? 128)%N) s.

Definition is_marker (txt : string) : bool :=
  startswith "ANSWERS" (upper txt).

Definition canonical_subjects : list string :=
  [ "General"; "General Intelligence and Reasoning"; "General Awareness";
    "Quantitative Aptitude"; "English Comprehension" ].

(** ** The answer parser's loop *)

Lemma pa_branch_not_stall txt st : pa_branch_of txt st ≠ BrStall.
Proof.
  unfold pa_branch_of.
  destruct (ANS_LINE_RE_match txt) as [[g1 g2]|] eqn:E; [discriminate|].
  destruct (EXPL_HDR_RE_match txt); [discriminate|].
  destruct (pa_collecting st); [|discriminate].
  rewrite bool_decide_eq_false_2; [discriminate|].
  by intros [x Hx].
Qed.

Lemma pa_body_advances txt st : pa_i (pa_body txt st) = S (pa_i st).
Proof.
  unfold pa_body.
  destruct (pa_branch_of txt st) eqn:E; try reflexivity.
  by apply pa_branch_not_stall in E.
Qed.

Lemma pa_while_enough lines fuel st :
  (length lines ≤ pa_i st + fuel)%nat →
  is_Some (pa_while fuel lines st).
Proof.
  revert st. induction fuel as [|fuel IH]; intros st Hlen; simpl.
  - rewrite lookup_ge_None_2 by lia. eauto.
  - destruct (lines !! pa_i st) as [[p txt]|] eqn:E; [|eauto].
    apply IH. rewrite pa_body_advances. lia.
Qed.

Lemma parse_answers_fuel_total lines :
  is_Some (parse_answers_fuel (length lines) lines).
Proof.
  unfold parse_answers_fuel.
  destruct (find_marker 0 lines) as [idx|]; [|eauto].
  destruct (pa_while_enough lines (length lines) (pa_init idx)) as [st Hst].
  { simpl. lia. }
  rewrite Hst. simpl. eauto.
Qed.

Lemma find_marker_none lines i :
  Forall (λ l : line, startswith "ANSWERS" (upper l.2) = false) lines →
  find_marker i lines = None.
Proof.
  intros H. revert i. induction H as [|[p txt] rest Hx _ IH]; intros i.
  - reflexivity.
  - simpl in *. by rewrite Hx.
Qed.

(** ** Characters and the first character of a line *)

Lemma is_abcd_not_space c :
  is_abcd c = true → py_space c = false ∧ re_space c = false.
Proof.
  destruct c as [[] [] [] [] [] [] [] []]; vm_compute; intuition congruence.
Qed.

Lemma is_abcd_upper c :
  is_abcd c = true →
  String (upper_char c) EmptyString ∈ ["A"; "B"; "C"; "D"].
Proof.
  destruct c as [[] [] [] [] [] [] [] []]; vm_compute; intros H;
    try discriminate H; set_solver.
Qed.

Lemma strip_first c t :
  py_space c = false → strip (String c t) = String c (rstrip t).
Proof.
  intros H. unfold strip, lstrip. simpl. rewrite H. simpl. rewrite H.
  by rewrite andb_false_r.
Qed.

Lemma clean_first c t :
  py_space c = false → re_space c = false →
  clean (String c t) = String c (rstrip (sub_ws false t)).
Proof.
  intros Hp Hr. unfold clean. simpl. rewrite Hr. by apply strip_first.
Qed.

Lemma option_match_first txt g :
  OPTION_RE_match txt = Some g →
  ∃ c t, txt = String c t ∧ is_abcd c = true.
Proof.
  destruct txt as [|c0 [|c1 r]]; simpl; try discriminate.
  destruct (is_abcd c0) eqn:E; simpl; [|discriminate]. eauto.
Qed.

(** On a line the option pattern matches, [raw] starts with the line's
    first character, so [raw[0]] is defined. *)
Lemma option_raw_first txt g :
  OPTION_RE_match txt = Some g →
  ∃ c, is_abcd c = true
       ∧ substring 0 1 txt = String c EmptyString
       ∧ substring 0 1 (strip txt) = String c EmptyString
       ∧ substring 0 1 (clean txt) = String c EmptyString.
Proof.
  intros H. destruct (option_match_first _ _ H) as (c & t & -> & Hc).
  destruct (is_abcd_not_space _ Hc) as [Hp Hr].
  exists c. rewrite strip_first, clean_first by done. simpl.
  repeat split; try done.
  - by destruct t.
  - by destruct (rstrip t).
  - by destruct (rstrip (sub_ws false t)).
Qed.

(** ** The segmenter *)

Section SegmenterFacts.

Variable ans_map : gmap Z (string * string).
Variable src : string.

Lemma make_question_fields n st :
  make_question ans_map src n st
  = question_of ans_map src (current_subject st) n
      (current_qtext st) (current_opts st).
Proof. reflexivity. Qed.

Lemma seg_run_texts st lines :
  seg_run ans_map src st lines = seg_texts ans_map src st (lines.*2).
Proof.
  unfold seg_run, seg_texts. revert st.
  induction lines as [|l ls IH]; intros st; simpl; [done|]. apply IH.
Qed.

Lemma not_boundary_inv t :
  ¬ is_boundary t → detect_section t = None ∧ QNUM_RE_match t = None.
Proof.
  unfold is_boundary. intros H.
  destruct (detect_section t) eqn:E1; [destruct H; eauto|].
  destruct (QNUM_RE_match t) eqn:E2; [destruct H; eauto|]. done.
Qed.

(** One line that is no boundary, read while a question is active. *)
Lemma seg_step_body st n t :
  current_qnum st = Some n → ¬ is_boundary t →
  seg_step ans_map src st t
  = {| questions := questions st;
       current_subject := current_subject st;
       current_qnum := Some n;
       current_qtext := append_all (current_qtext st) (continuation_lines [t]);
       current_opts := current_opts st ++ (option_of <$> option_lines [t]) |}.
Proof.
  intros Hn Hb. destruct (not_boundary_inv _ Hb) as [Hs Hq].
  unfold seg_step, continuation_lines, option_lines.
  rewrite !filter_cons, !filter_nil. unfold is_continuation, is_option_line.
  rewrite Hs, Hq, Hn. destruct st as [qs subj qn qt os]; simpl in *; subst qn.
  destruct (OPTION_RE_match t) as [g|] eqn:Eo.
  - rewrite bool_decide_eq_true_2 by eauto. simpl.
    do 2 f_equal. unfold make_option, option_of. rewrite Eo. simpl.
    destruct (option_raw_first _ _ Eo) as (c & _ & _ & -> & ->). done.
  - rewrite (bool_decide_eq_false_2 (is_Some None)) by (by intros [? ?]).
    simpl. rewrite app_nil_r.
    destruct (MARKS_RE_search t); simpl; [done|].
    destruct (is_empty t); simpl; [done|].
    destruct (startswith "ANSWERS" (upper t)); simpl; done.
Qed.

Lemma built_from_flush read st n t more :
  in_progress read st → current_qnum st = Some n → is_boundary t →
  built_from ans_map src ((read ++ [t]) ++ more)
    (make_question ans_map src n st).
Proof.
  unfold in_progress. intros Hp Hn Hb. rewrite Hn in Hp.
  destruct Hp as (pre & qline & seg & g1 & g2 & -> & Hs & Hq & Hseg & -> & Ht & Ho).
  exists pre, qline, seg, (t :: more), g1, g2, (current_subject st).
  repeat split; try done.
  - by rewrite <- !app_assoc.
  - simpl. by intros ? [= <-].
  - by rewrite make_question_fields, Ht, Ho.
Qed.

Lemma seg_inv_step read st t :
  seg_inv ans_map src read st →
  seg_inv ans_map src (read ++ [t]) (seg_step ans_map src st t).
Proof.
  intros [Hq Hp].
  assert (Hold : ∀ r more, r ∈ questions st →
            built_from ans_map src ((read ++ [t]) ++ more) r).
  { intros r more Hr. rewrite <- app_assoc. by apply Hq. }
  assert (Hfl : ∀ r more, is_boundary t → r ∈ flush ans_map src st →
            built_from ans_map src ((read ++ [t]) ++ more) r).
  { intros r more Hb. unfold flush.
    destruct (current_qnum st) as [n|] eqn:En; [|by apply Hold].
    rewrite elem_of_app, list_elem_of_singleton. intros [Hr| ->].
    - by apply Hold.
    - by apply built_from_flush. }
  destruct (detect_section t) as [sec|] eqn:Es.
  { unfold seg_step. rewrite Es. split; [|done]. simpl.
    intros r more. apply Hfl. left. eauto. }
  destruct (QNUM_RE_match t) as [[g1 g2]|] eqn:Eq.
  { unfold seg_step. rewrite Es, Eq. split; simpl.
    - intros r more. apply Hfl. right. eauto.
    - unfold in_progress. simpl.
      exists read, t, [], g1, g2. repeat split; try done. }
  assert (Hb : ¬ is_boundary t).
  { intros [[? ?]|[? ?]]; congruence. }
  destruct (current_qnum st) as [n|] eqn:En.
  - rewrite (seg_step_body _ n) by done. split; [done|].
    unfold in_progress in *. simpl. rewrite En in Hp.
    destruct Hp as (pre & qline & seg & g1 & g2 & -> & Hs & Hm & Hseg & -> & Ht & Ho).
    exists pre, qline, (seg ++ [t]), g1, g2. repeat split; try done.
    + by rewrite <- app_assoc.
    + apply Forall_app. split; [done|]. by constructor.
    + rewrite Ht. unfold continuation_lines, append_all.
      by rewrite filter_app, fold_left_app.
    + rewrite Ho. unfold option_lines. by rewrite filter_app, fmap_app.
  - unfold seg_step. rewrite Es, Eq, En. split; [done|].
    unfold in_progress. by rewrite En.
Qed.

Lemma seg_inv_run rest read st :
  seg_inv ans_map src read st →
  seg_inv ans_map src (read ++ rest) (seg_texts ans_map src st rest).
Proof.
  revert read st. induction rest as [|t rest IH]; intros read st H.
  - by rewrite app_nil_r.
  - simpl. replace (read ++ t :: rest) with ((read ++ [t]) ++ rest)
      by (by rewrite <- app_assoc).
    apply IH. by apply seg_inv_step.
Qed.

Lemma seg_inv_init : seg_inv ans_map src [] seg_init.
Proof. split; [|done]. intros r more Hr. by apply elem_of_nil in Hr. Qed.

(** Every record of the output is built from one question-start line and
    the lines after it. *)
Lemma flush_run_shape texts r :
  r ∈ flush ans_map src (seg_texts ans_map src seg_init texts) →
  built_from ans_map src texts r.
Proof.
  pose proof (seg_inv_run texts [] seg_init seg_inv_init) as [Hq Hp].
  simpl in *. set (st := seg_texts ans_map src seg_init texts) in *.
  unfold flush. destruct (current_qnum st) as [n|] eqn:En.
  - rewrite elem_of_app, list_elem_of_singleton. intros [Hr| ->].
    + specialize (Hq r [] Hr). by rewrite app_nil_r in Hq.
    + unfold in_progress in Hp. rewrite En in Hp.
      destruct Hp as (pre & qline & seg & g1 & g2 & -> & Hs & Hm & Hseg & -> & Ht & Ho).
      exists pre, qline, seg, [], g1, g2, (current_subject st).
      rewrite app_nil_r. repeat split; try done.
      by rewrite make_question_fields, Ht, Ho.
  - intros Hr. specialize (Hq r [] Hr). by rewrite app_nil_r in Hq.
Qed.

End SegmenterFacts.

Lemma parse_questions_shape lines ans_map r :
  r ∈ parse_questions lines ans_map →
  built_from ans_map (source_of lines) (lines.*2) r.
Proof.
  unfold parse_questions. rewrite seg_run_texts. apply flush_run_shape.
Qed.

(** ** Question numbers and identifiers *)

Lemma take_while_all p s : sall p (take_while p s) = true.
Proof.
  induction s as [|c t IH]; simpl; [done|].
  destruct (p c) eqn:E; simpl; [|done]. by rewrite E.
Qed.

Lemma match_num13_digits s ds r :
  match_num13 s = Some (ds, r) →
  sall re_digit ds = true ∧ (1 ≤ String.length ds ≤ 3)%nat.
Proof.
  unfold match_num13.
  destruct (_ && _) eqn:E; [|discriminate].
  destruct (eat_char _ _); [|discriminate]. simpl. intros [= <- _].
  split; [apply take_while_all|].
  apply andb_true_iff in E as [E1 E2].
  apply Nat.leb_le in E1, E2. lia.
Qed.

Lemma QNUM_RE_match_digits txt g1 g2 :
  QNUM_RE_match txt = Some (g1, g2) →
  sall re_digit g1 = true ∧ (1 ≤ String.length g1 ≤ 3)%nat.
Proof.
  unfold QNUM_RE_match.
  destruct (match_num13 txt) as [[ds r]|] eqn:E; [|discriminate].
  simpl. intros [= <- _]. by eapply match_num13_digits.
Qed.

Lemma re_digit_value c :
  re_digit c = true → 0 ≤ Z.of_N (ord c) - 48 ≤ 9.
Proof.
  unfold re_digit, in_range. intros H.
  apply andb_true_iff in H as [H1 H2].
  apply N.leb_le in H1, H2. lia.
Qed.

Lemma int_of_small ds :
  sall re_digit ds = true → (String.length ds ≤ 3)%nat →
  0 ≤ int_of ds ≤ 999.
Proof.
  unfold int_of.
  destruct ds as [|a [|b [|c [|d t]]]]; simpl; intros H Hl; try lia;
    repeat match goal with
           | H : _ && _ = true |- _ => apply andb_true_iff in H as [? H]
           | H : re_digit _ = true |- _ => apply re_digit_value in H
           end; lia.
Qed.

Lemma format_03d_pad3 n : 0 ≤ n ≤ 999 → format_03d n = pad3 n.
Proof.
  intros Hn.
  assert (Hall : forallb (λ k : nat,
            String.eqb (format_03d (Z.of_nat k)) (pad3 (Z.of_nat k)))
            (seq 0 1000) = true) by (vm_compute; reflexivity).
  rewrite forallb_forall in Hall.
  specialize (Hall (Z.to_nat n)).
  rewrite Z2Nat.id in Hall by lia.
  apply String.eqb_eq, Hall, in_seq. lia.
Qed.

(** ** Counting the records *)

Lemma flush_step_length ans_map src st t :
  length (flush ans_map src (seg_step ans_map src st t))
  = (length (flush ans_map src st) + (if is_qstart t then 1 else 0))%nat.
Proof.
  unfold is_qstart, seg_step.
  destruct (detect_section t) as [sec|] eqn:Es.
  { rewrite bool_decide_eq_false_2 by (by intros [? _]).
    unfold flush at 1. simpl. lia. }
  destruct (QNUM_RE_match t) as [[g1 g2]|] eqn:Eq.
  { rewrite bool_decide_eq_true_2 by eauto.
    unfold flush at 1. simpl. by rewrite length_app. }
  rewrite (bool_decide_eq_false_2 (_ ∧ _))
    by (intros [? HH]; by apply is_Some_None in HH).
  rewrite Nat.add_0_r. unfold flush.
  destruct (current_qnum st) as [n|] eqn:En; [|by rewrite En].
  destruct (OPTION_RE_match t); simpl; [by rewrite !length_app|].
  destruct (MARKS_RE_search t); [by rewrite En|].
  destruct (_ && _); simpl; [|by rewrite En]. by rewrite !length_app.
Qed.

Lemma flush_run_length ans_map src lines st :
  length (flush ans_map src (seg_run ans_map src st lines))
  = (length (flush ans_map src st)
     + length (filter (λ l : line, is_qstart l.2 = true) lines))%nat.
Proof.
  unfold seg_run. revert st.
  induction lines as [|l ls IH]; intros st; simpl; [lia|].
  rewrite IH, flush_step_length, filter_cons.
  destruct (is_qstart l.2); simpl; lia.
Qed.

(** ** The scenario and the answer map *)

(** C1, on the code.  On the nine lines of the scenario the answer map has
    the single entry 1 -> ("B", "Basic arithmetic."), and the segmenter
    returns two records, not one: the record the scenario describes, and a
    second record built from the answer section, whose line
    "1. Answer: B" matches the question-start pattern as well. *)
Theorem scenario_yields_two_records :
  map_to_list (pipeline scenario_lines).1 = [(1, ("B", "Basic arithmetic."))]
  ∧ (pipeline scenario_lines).2 = [scenario_record; answer_section_record].
Proof. split; vm_compute; reflexivity. Qed.

(** C2, on the code.  When the answer section gives question 1 twice and
    then question 2, the commit inside the loop replaces the first pair
    ("A", "") of question 1 by the second one ("B", ""). *)
Theorem repeated_answer_is_overwritten :
  parse_answers repeated_answer_lines !! 1 = Some ("B", "").
Proof. vm_compute. reflexivity. Qed.

(** C9.  [parse_answers] terminates on every list of lines: no iteration
    of its loop takes the path that leaves the index as it is, every
    iteration moves the index forward by one, and one iteration per line
    is enough for the loop to finish and return the map. *)
Theorem parse_answers_terminates (lines : list line) :
  (∀ txt st, pa_branch_of txt st ≠ BrStall)
  ∧ (∀ txt st, pa_i (pa_body txt st) = S (pa_i st))
  ∧ ∃ m, parse_answers_fuel (length lines) lines = Some m
         ∧ parse_answers lines = m.
Proof.
  split; [apply pa_branch_not_stall|]. split; [apply pa_body_advances|].
  destruct (parse_answers_fuel_total lines) as [m Hm].
  exists m. split; [done|]. unfold parse_answers. by rewrite Hm.
Qed.

(** ** The records *)

(** C5.  Merge by number: a record whose number is in the answer map
    carries exactly the letter and the explanation stored for it, and a
    record whose number is not in the map has both fields empty; when no
    line is an answer-section marker the map is empty and so are both
    fields of every record. *)
Theorem merge_by_number (lines : list line) r :
  r ∈ parse_questions lines (parse_answers lines) →
  match parse_answers lines !! qnum r with
  | Some (a, e) => answer r = a ∧ explanation_en r = e
  | None => answer r = "" ∧ explanation_en r = ""
  end
  ∧ (Forall (λ l : line, startswith "ANSWERS" (upper l.2) = false) lines →
     parse_answers lines = ∅ ∧ answer r = "" ∧ explanation_en r = "").
Proof.
  intros Hr.
  destruct (parse_questions_shape _ _ _ Hr)
    as (pre & qline & seg & post & g1 & g2 & subj & _ & _ & _ & _ & _ & ->).
  split.
  - simpl. by destruct (parse_answers lines !! int_of g1) as [[a e]|].
  - intros Hno.
    assert (He : parse_answers lines = ∅).
    { unfold parse_answers, parse_answers_fuel.
      by rewrite (find_marker_none _ _ Hno). }
    split; [done|]. simpl. by rewrite He, lookup_empty.
Qed.

Lemma merge_by_number_witness :
  unanswered_record
    ∈ parse_questions unanswered_lines (parse_answers unanswered_lines)
  ∧ Forall (λ l : line, startswith "ANSWERS" (upper l.2) = false)
      unanswered_lines
  ∧ parse_answers unanswered_lines = ∅
  ∧ answer unanswered_record = ""
  ∧ explanation_en unanswered_record = "".
Proof.
  assert (H : unanswered_record
              ∈ parse_questions unanswered_lines
                  (parse_answers unanswered_lines)).
  { vm_compute. apply list_elem_of_here. }
  assert (F : Forall (λ l : line, startswith "ANSWERS" (upper l.2) = false)
                unanswered_lines).
  { unfold unanswered_lines, on_page0. simpl.
    repeat (constructor; [vm_compute; reflexivity|]). constructor. }
  split; [exact H|]. split; [exact F|].
  exact (proj2 (merge_by_number unanswered_lines unanswered_record H) F).
Defined.

(** C10.  The identifier of every record is the constant prefix
    "SSC-CGL-2024-Shift-1-Q" followed by the record's number written with
    three digits, whatever the document (and so whatever header text the
    source label was taken from); the number is between 0 and 999. *)
Theorem id_from_number (lines : list line) ans_map r :
  r ∈ parse_questions lines ans_map →
  0 ≤ qnum r ≤ 999
  ∧ q_id r = "SSC-CGL-2024-Shift-1-Q" +:+ pad3 (qnum r).
Proof.
  intros Hr.
  destruct (parse_questions_shape _ _ _ Hr)
    as (pre & qline & seg & post & g1 & g2 & subj & _ & _ & Hq & _ & _ & ->).
  destruct (QNUM_RE_match_digits _ _ _ Hq) as [Hd Hl].
  assert (Hn : 0 ≤ int_of g1 ≤ 999) by (apply int_of_small; [done|lia]).
  split; [exact Hn|]. simpl. by rewrite format_03d_pad3.
Qed.

Lemma id_from_number_witness :
  scenario_record ∈ parse_questions scenario_lines (parse_answers scenario_lines)
  ∧ 0 ≤ qnum scenario_record ≤ 999
  ∧ q_id scenario_record
    = "SSC-CGL-2024-Shift-1-Q" +:+ pad3 (qnum scenario_record).
Proof.
  assert (H : scenario_record
              ∈ parse_questions scenario_lines (parse_answers scenario_lines)).
  { vm_compute. apply list_elem_of_here. }
  split; [exact H|].
  exact (id_from_number scenario_lines _ scenario_record H).
Defined.

Lemma option_of_key t :
  is_option_line t = true → key (option_of t) ∈ ["A"; "B"; "C"; "D"].
Proof.
  unfold is_option_line. intros H. apply bool_decide_eq_true_1 in H as [g Hg].
  destruct (option_raw_first _ _ Hg) as (c & Hc & _ & _ & Hk).
  unfold option_of. simpl. rewrite Hk. simpl. by apply is_abcd_upper.
Qed.

(** C6.  The options of a record are the option lines among the lines that
    follow its question-start line, up to the next boundary, in the order
    of the document; the key of each is the uppercased first character of
    its cleaned line, and is one of A, B, C, D. *)
Theorem option_keys_and_order (lines : list line) ans_map r :
  r ∈ parse_questions lines ans_map →
  ∃ pre qline seg post,
    lines.*2 = pre ++ qline :: seg ++ post
    ∧ is_qstart qline = true
    ∧ Forall (λ t, ¬ is_boundary t) seg
    ∧ (∀ t, head post = Some t → is_boundary t)
    ∧ options r = option_of <$> option_lines seg
    ∧ Forall (λ o, key o ∈ ["A"; "B"; "C"; "D"]) (options r).
Proof.
  intros Hr.
  destruct (parse_questions_shape _ _ _ Hr)
    as (pre & qline & seg & post & g1 & g2 & subj & Ht & Hs & Hq & Hseg & Hp & ->).
  exists pre, qline, seg, post. repeat split; try done.
  - unfold is_qstart. apply bool_decide_eq_true_2. split; [done|eauto].
  - simpl. apply Forall_fmap, Forall_forall. intros t Hin.
    apply list_elem_of_filter in Hin as [Ho _]. by apply option_of_key.
Qed.

Lemma option_keys_and_order_witness :
  scenario_record ∈ parse_questions scenario_lines (parse_answers scenario_lines)
  ∧ ∃ pre qline seg post,
      scenario_lines.*2 = pre ++ qline :: seg ++ post
      ∧ is_qstart qline = true
      ∧ Forall (λ t, ¬ is_boundary t) seg
      ∧ (∀ t, head post = Some t → is_boundary t)
      ∧ options scenario_record = option_of <$> option_lines seg
      ∧ Forall (λ o, key o ∈ ["A"; "B"; "C"; "D"]) (options scenario_record).
Proof.
  assert (H : scenario_record
              ∈ parse_questions scenario_lines (parse_answers scenario_lines)).
  { vm_compute. apply list_elem_of_here. }
  split; [exact H|].
  exact (option_keys_and_order scenario_lines _ scenario_record H).
Defined.

(** C3, as the specification words it, fails: the text after the number
    on a question-start line is kept as it is, so an annotation written
    there reaches the record's text, where a later annotation line of the
    same wording is then found as a substring. *)
Lemma marks_line_found_in_text :
  ¬ marks_lines_absent inline_marks_lines
  ∧ q_en <$> (pipeline inline_marks_lines).2 = ["Capital of India? (+2, -0.5)"]
  ∧ contains "(+2, -0.5)" "Capital of India? (+2, -0.5)" = true.
Proof.
  split; [|split; vm_compute; reflexivity].
  intros H.
  assert (Hq : ∃ r, (pipeline inline_marks_lines).2 = [r]
                    ∧ q_en r = "Capital of India? (+2, -0.5)").
  { eexists. split; vm_compute; reflexivity. }
  destruct Hq as (r & Hr & Hq).
  specialize (H (0, "(+2, -0.5)") r). rewrite Hr, Hq in H.
  assert (Hc : true = false); [|discriminate Hc].
  rewrite <- H.
  - vm_compute. reflexivity.
  - unfold inline_marks_lines, on_page0. simpl. set_solver.
  - vm_compute. reflexivity.
  - apply list_elem_of_here.
Qed.

Lemma continuation_not_marks seg :
  Forall (λ t, MARKS_RE_search t = false) (continuation_lines seg).
Proof.
  apply Forall_forall. intros t Hin.
  apply list_elem_of_filter in Hin as [Hc _].
  unfold is_continuation in Hc.
  destruct (MARKS_RE_search t); [|done].
  by rewrite andb_false_r in Hc.
Qed.

Local Set Warnings "-clear-no-such-hyp".

Lemma continuation_lines_explicit seg :
  continuation_lines seg
  = filter (λ t, OPTION_RE_match t = None ∧ MARKS_RE_search t = false
                 ∧ t ≠ "" ∧ startswith "ANSWERS" (upper t) = false) seg.
Proof.
  unfold continuation_lines. apply list_filter_iff. intros t.
  unfold is_continuation, is_option_line.
  destruct (OPTION_RE_match t) as [g|] eqn:Eo.
  - rewrite bool_decide_eq_true_2 by eauto. simpl. naive_solver.
  - rewrite (bool_decide_eq_false_2 (is_Some None))
      by (intros HH; by apply is_Some_None in HH).
    destruct (MARKS_RE_search t); cbn [negb andb]; [naive_solver|].
    destruct (startswith "ANSWERS" (upper t)) eqn:Es.
    { rewrite andb_false_r. naive_solver. }
    destruct t as [|c t']; cbn [negb andb is_empty]; naive_solver.
Qed.

(** C3, amended.  A line that matches the scoring pattern is never
    appended to the text of a question.  The text of a record is the
    cleaned concatenation of what follows the number on its question-start
    line and, each after one space, of the lines of its body (all the
    lines up to the next section header or question-start line, or to the
    end of the document) that are no option line, do not match the scoring
    pattern, are not empty and are no answer-section marker. *)
Theorem marks_never_appended (lines : list line) ans_map r :
  r ∈ parse_questions lines ans_map →
  ∃ pre qline seg post g1 g2,
    lines.*2 = pre ++ qline :: seg ++ post
    ∧ detect_section qline = None
    ∧ QNUM_RE_match qline = Some (g1, g2)
    ∧ Forall (λ t, ¬ is_boundary t) seg
    ∧ (∀ t, head post = Some t → is_boundary t)
    ∧ q_en r
      = clean (append_all (strip g2)
          (filter (λ t, OPTION_RE_match t = None
                        ∧ MARKS_RE_search t = false
                        ∧ t ≠ ""
                        ∧ startswith "ANSWERS" (upper t) = false) seg))
    ∧ Forall (λ t, MARKS_RE_search t = false)
        (filter (λ t, OPTION_RE_match t = None
                      ∧ MARKS_RE_search t = false
                      ∧ t ≠ ""
                      ∧ startswith "ANSWERS" (upper t) = false) seg).
Proof.
  intros Hr.
  destruct (parse_questions_shape _ _ _ Hr)
    as (pre & qline & seg & post & g1 & g2 & subj & Ht & Hs & Hq & Hseg & Hp & ->).
  exists pre, qline, seg, post, g1, g2.
  repeat split; try done.
  - simpl. by rewrite continuation_lines_explicit.
  - rewrite <- continuation_lines_explicit. apply continuation_not_marks.
Qed.

Lemma marks_never_appended_witness :
  scenario_record ∈ parse_questions scenario_lines (parse_answers scenario_lines)
  ∧ ∃ pre qline seg post g1 g2,
      scenario_lines.*2 = pre ++ qline :: seg ++ post
      ∧ detect_section qline = None
      ∧ QNUM_RE_match qline = Some (g1, g2)
      ∧ Forall (λ t, ¬ is_boundary t) seg
      ∧ (∀ t, head post = Some t → is_boundary t)
      ∧ q_en scenario_record
        = clean (append_all (strip g2)
            (filter (λ t, OPTION_RE_match t = None
                          ∧ MARKS_RE_search t = false
                          ∧ t ≠ ""
                          ∧ startswith "ANSWERS" (upper t) = false) seg))
      ∧ Forall (λ t, MARKS_RE_search t = false)
          (filter (λ t, OPTION_RE_match t = None
                        ∧ MARKS_RE_search t = false
                        ∧ t ≠ ""
                        ∧ startswith "ANSWERS" (upper t) = false) seg).
Proof.
  assert (H : scenario_record
              ∈ parse_questions scenario_lines (parse_answers scenario_lines)).
  { vm_compute. apply list_elem_of_here. }
  split; [exact H|].
  exact (marks_never_appended scenario_lines _ scenario_record H).
Defined.

(** C4, as the specification words it, fails: a numbered section heading
    matches the question-start pattern but is read as a section header,
    and starts no question. *)
Lemma numbered_header_starts_no_question :
  ¬ one_record_per_qnum_line numbered_header_lines
  ∧ length (pipeline numbered_header_lines).2 = 1%nat
  ∧ length (filter (λ l : line, is_Some (QNUM_RE_match l.2))
              numbered_header_lines) = 2%nat.
Proof.
  unfold one_record_per_qnum_line.
  split; [vm_compute; discriminate|]. split; vm_compute; reflexivity.
Qed.

(** C4, amended.  The number of records equals the number of lines that
    match the question-start pattern and are not section headers. *)
Theorem one_record_per_question_start (lines : list line) ans_map :
  length (parse_questions lines ans_map)
  = length (filter (λ l : line, is_qstart l.2 = true) lines).
Proof. unfold parse_questions. by rewrite flush_run_length. Qed.

(** C8.  While no question number is active, a line that is neither a
    section header nor a question start leaves the segmenter's state, the
    list of finished records included, as it was; whatever follows, the
    output is the one obtained without reading the line. *)
Theorem idle_line_changes_nothing ans_map src (st : seg_state) txt :
  current_qnum st = None →
  detect_section txt = None →
  QNUM_RE_match txt = None →
  seg_step ans_map src st txt = st
  ∧ ∀ rest, flush ans_map src (seg_texts ans_map src st (txt :: rest))
            = flush ans_map src (seg_texts ans_map src st rest).
Proof.
  intros Hn Hs Hq.
  assert (H : seg_step ans_map src st txt = st).
  { unfold seg_step. by rewrite Hs, Hq, Hn. }
  split; [exact H|]. intros rest. unfold seg_texts. simpl. by rewrite H.
Qed.

Lemma idle_line_changes_nothing_witness :
  seg_step ∅ "" seg_init "A. 3" = seg_init
  ∧ ∀ rest, flush ∅ "" (seg_texts ∅ "" seg_init ("A. 3" :: rest))
            = flush ∅ "" (seg_texts ∅ "" seg_init rest).
Proof.
  apply (idle_line_changes_nothing ∅ "" seg_init "A. 3");
    vm_compute; reflexivity.
Defined.

(** ** The segmenter as a segmentation of the document *)

Lemma append_all_app s a b :
  append_all s (a ++ b) = append_all (append_all s a) b.
Proof. unfold append_all. by rewrite fold_left_app. Qed.

Lemma boundaryb_true t : is_boundary t → boundaryb t = true.
Proof. intros H. unfold boundaryb. by apply bool_decide_eq_true_2. Qed.

Lemma boundaryb_false t : ¬ is_boundary t → boundaryb t = false.
Proof. intros H. unfold boundaryb. by apply bool_decide_eq_false_2. Qed.

(** The records flushed after reading [texts] from the state [st]: the
    ones already finished, the question in progress closed at the first
    boundary, and the questions of [texts]. *)
Lemma flush_texts_segments ans_map src texts st :
  flush ans_map src (seg_texts ans_map src st texts)
  = questions st
    ++ match current_qnum st with
       | Some n =>
           [question_of ans_map src (current_subject st) n
              (append_all (current_qtext st)
                 (continuation_lines (body_of texts)))
              (current_opts st ++ (option_of <$> option_lines (body_of texts)))]
       | None => []
       end
    ++ (record_of ans_map src <$> segments (current_subject st) texts).
Proof.
  revert st. induction texts as [|t rest IH]; intros st.
  - simpl. unfold flush. destruct (current_qnum st) as [n|]; simpl.
    + by rewrite !app_nil_r, make_question_fields.
    + by rewrite app_nil_r.
  - change (seg_texts ans_map src st (t :: rest))
      with (seg_texts ans_map src (seg_step ans_map src st t) rest).
    rewrite IH. clear IH. simpl segments. simpl body_of.
    destruct (detect_section t) as [sec|] eqn:Es.
    { rewrite boundaryb_true by (left; eauto).
      unfold seg_step. rewrite Es. simpl. unfold flush.
      destruct (current_qnum st) as [n|]; simpl; [|done].
      by rewrite app_nil_r, make_question_fields, <- app_assoc. }
    destruct (QNUM_RE_match t) as [[g1 g2]|] eqn:Eq.
    { rewrite boundaryb_true by (right; eauto).
      unfold seg_step. rewrite Es, Eq. simpl. unfold flush, record_of.
      destruct (current_qnum st) as [n|]; simpl; [|done].
      by rewrite app_nil_r, make_question_fields, <- app_assoc. }
    assert (Hb : ¬ is_boundary t).
    { intros [[? ?]|[? ?]]; congruence. }
    rewrite boundaryb_false by done.
    destruct (current_qnum st) as [n|] eqn:En.
    + rewrite (seg_step_body _ _ _ n) by done. simpl.
      do 3 f_equal.
      * change (t :: body_of rest) with ([t] ++ body_of rest).
        unfold continuation_lines. rewrite filter_app.
        by rewrite append_all_app.
      * change (t :: body_of rest) with ([t] ++ body_of rest).
        unfold option_lines. by rewrite filter_app, fmap_app, app_assoc.
    + unfold seg_step. by rewrite Es, Eq, En, En.
Qed.

Lemma detect_section_canonical t sec :
  detect_section t = Some sec → sec ∈ canonical_subjects.
Proof.
  unfold detect_section, SECTION_HEADERS, first_header, canonical_subjects.
  repeat (destruct (contains _ _); [intros [= <-]; set_solver|]).
  discriminate.
Qed.

Lemma segments_subjects subj texts :
  default "General" subj ∈ canonical_subjects →
  Forall (λ s, default "General" (seg_subject s) ∈ canonical_subjects)
    (segments subj texts).
Proof.
  revert subj. induction texts as [|t rest IH]; intros subj Hs; simpl.
  - constructor.
  - destruct (detect_section t) as [sec|] eqn:Es.
    { apply IH. simpl. by eapply detect_section_canonical. }
    destruct (QNUM_RE_match t) as [[g1 g2]|]; [|by apply IH].
    constructor; [done|by apply IH].
Qed.

Lemma segments_numbers subj texts :
  (λ s, int_of (seg_num s)) <$> segments subj texts
  = (λ t, int_of (default ("", "") (QNUM_RE_match t)).1)
      <$> filter (λ t, is_qstart t = true) texts.
Proof.
  revert subj. induction texts as [|t rest IH]; intros subj; [done|].
  simpl segments.
  destruct (detect_section t) as [sec|] eqn:Es.
  { rewrite filter_cons_False; [apply IH|].
    unfold is_qstart. rewrite bool_decide_eq_false_2; [done|].
    rewrite Es. by intros [? _]. }
  destruct (QNUM_RE_match t) as [[g1 g2]|] eqn:Eq.
  - rewrite filter_cons_True.
    + simpl. rewrite Eq. simpl. f_equal. apply IH.
    + unfold is_qstart. apply bool_decide_eq_true_2. rewrite Eq. eauto.
  - rewrite filter_cons_False; [apply IH|].
    unfold is_qstart. rewrite bool_decide_eq_false_2; [done|].
    rewrite Eq. intros [? HH]. by apply is_Some_None in HH.
Qed.

Lemma parse_questions_unfold (lines : list line) ans_map :
  parse_questions lines ans_map
  = record_of ans_map (source_of lines) <$> segments None (lines.*2).
Proof.
  unfold parse_questions.
  by rewrite seg_run_texts, flush_texts_segments.
Qed.

(** X1.  [parse_questions] returns, in document order, one record for
    each question of the document: the subject is that of the last section
    header before the question-start line (none: "General"), the text is
    what follows the number on that line and then the continuation lines
    of the body, the options are the option lines of the body, and the
    body ends at the next section header or question-start line. *)
Theorem parse_questions_segments (lines : list line) ans_map :
  parse_questions lines ans_map
  = record_of ans_map (source_of lines) <$> segments None (lines.*2).
Proof. apply parse_questions_unfold. Qed.

(** X2.  The numbers of the records are the numbers of the question-start
    lines, in the order of the document; a number that occurs twice gives
    two records. *)
Theorem record_numbers_in_document_order (lines : list line) ans_map :
  qnum <$> parse_questions lines ans_map
  = (λ t, int_of (default ("", "") (QNUM_RE_match t)).1)
      <$> filter (λ t, is_qstart t = true) (lines.*2).
Proof.
  rewrite parse_questions_unfold, <- list_fmap_compose.
  rewrite <- segments_numbers with (subj := None). done.
Qed.

(** X3.  The subject of every record is "General" or one of the four
    canonical section names, and the tags are "pyq", "bilingual" and the
    subject in lower case with hyphens for spaces. *)
Theorem record_subject_and_tags (lines : list line) ans_map r :
  r ∈ parse_questions lines ans_map →
  subject r ∈ canonical_subjects
  ∧ tags r = ["pyq"; "bilingual"; replace_char " " "-" (lower (subject r))].
Proof.
  rewrite parse_questions_unfold. intros Hr.
  apply list_elem_of_fmap in Hr as (s & -> & Hs).
  split; [|done]. simpl.
  pose proof (segments_subjects None (lines.*2)) as HF.
  rewrite Forall_forall in HF. apply HF; [|done].
  simpl. unfold canonical_subjects. set_solver.
Qed.

Lemma record_subject_and_tags_witness :
  scenario_record ∈ parse_questions scenario_lines (parse_answers scenario_lines)
  ∧ subject scenario_record ∈ canonical_subjects
  ∧ tags scenario_record
    = ["pyq"; "bilingual"; replace_char " " "-" (lower (subject scenario_record))].
Proof.
  assert (H : scenario_record
              ∈ parse_questions scenario_lines (parse_answers scenario_lines)).
  { vm_compute. apply list_elem_of_here. }
  split; [exact H|].
  exact (record_subject_and_tags scenario_lines _ scenario_record H).
Defined.

(** X4.  The answer map reaches the records only through the fields
    answer and explanation: with two different maps the records agree in
    number, order and every other field. *)
Theorem segmentation_independent_of_answers (lines : list line) m1 m2 :
  without_answer <$> parse_questions lines m1
  = without_answer <$> parse_questions lines m2.
Proof.
  rewrite !parse_questions_unfold, <- !list_fmap_compose.
  apply list_fmap_ext. intros i s _. reflexivity.
Qed.

Lemma page_lines_filter p (Q : line → Prop) `{∀ l, Decision (Q l)} lines :
  (∀ l : line, l.1 = p → Q l) →
  page_lines p (filter Q lines) = page_lines p lines.
Proof.
  intros HQ. unfold page_lines. f_equal.
  induction lines as [|l ls IH]; [done|].
  rewrite !filter_cons.
  destruct (decide (Q l)) as [Hq|Hq].
  - rewrite filter_cons. destruct (decide (l.1 = p)); by rewrite IH.
  - destruct (decide (l.1 = p)) as [Hp|Hp]; [|done].
    destruct Hq. by apply HQ.
Qed.

(** X5.  All records of one run carry the same source label, and that
    label depends only on the lines of pages 0 and 1. *)
Theorem source_shared_and_from_first_pages (lines : list line) ans_map r :
  r ∈ parse_questions lines ans_map →
  source r = source_of lines
  ∧ source_of lines
    = source_of (filter (λ l : line, l.1 = 0 ∨ l.1 = 1) lines).
Proof.
  rewrite parse_questions_unfold. intros Hr.
  apply list_elem_of_fmap in Hr as (s & -> & Hs).
  split; [done|]. unfold source_of.
  rewrite !page_lines_filter; [done| |]; intros l Hl; [by right|by left].
Qed.

Lemma source_shared_and_from_first_pages_witness :
  scenario_record ∈ parse_questions scenario_lines (parse_answers scenario_lines)
  ∧ source scenario_record = source_of scenario_lines
  ∧ source_of scenario_lines
    = source_of (filter (λ l : line, l.1 = 0 ∨ l.1 = 1) scenario_lines).
Proof.
  assert (H : scenario_record
              ∈ parse_questions scenario_lines (parse_answers scenario_lines)).
  { vm_compute. apply list_elem_of_here. }
  split; [exact H|].
  exact (source_shared_and_from_first_pages scenario_lines _ scenario_record H).
Defined.

(** ** Whitespace normalisation *)

Lemma sub_ws_spaced b s : spaced_ok b (sub_ws b s) = true.
Proof.
  revert b. induction s as [|c t IH]; intros b; simpl; [done|].
  destruct (re_space c) eqn:E.
  - destruct b; [apply IH|]. simpl. by rewrite IH.
  - simpl. rewrite E. apply IH.
Qed.

Lemma spaced_sub_ws b s : spaced_ok b s = true → sub_ws b s = s.
Proof.
  revert b. induction s as [|c t IH]; intros b; simpl; [done|].
  destruct (re_space c) eqn:E.
  - intros H. apply andb_true_iff in H as [H Ht].
    apply andb_true_iff in H as [Hc Hb].
    apply negb_true_iff in Hb. subst b.
    apply Ascii.eqb_eq in Hc. subst c. by rewrite IH.
  - intros H. by rewrite IH.
Qed.

Lemma spaced_weaken b s : spaced_ok b s = true → spaced_ok false s = true.
Proof.
  destruct s as [|c t]; simpl; [done|].
  destruct (re_space c); [|done].
  intros H. apply andb_true_iff in H as [H Ht].
  apply andb_true_iff in H as [Hc _]. by rewrite Hc, Ht.
Qed.

Lemma spaced_drop_while p b s :
  spaced_ok b s = true → spaced_ok false (drop_while p s) = true.
Proof.
  revert b. induction s as [|c t IH]; intros b H; simpl; [done|].
  destruct (p c); [|by eapply spaced_weaken].
  simpl in H. destruct (re_space c).
  - apply andb_true_iff in H as [_ Ht]. by eapply IH.
  - by eapply IH.
Qed.

Lemma spaced_rstrip b s : spaced_ok b s = true → spaced_ok b (rstrip s) = true.
Proof.
  revert b. induction s as [|c t IH]; intros b H; simpl; [done|].
  destruct (is_empty (rstrip t) && py_space c); [done|].
  simpl in *. destruct (re_space c).
  - apply andb_true_iff in H as [H Ht]. rewrite H. simpl. by apply IH.
  - by apply IH.
Qed.

Lemma spaced_strip s : spaced_ok false s = true → spaced_ok false (strip s) = true.
Proof.
  intros H. unfold strip, lstrip. apply spaced_rstrip.
  by eapply spaced_drop_while.
Qed.

Lemma rstrip_idem s : rstrip (rstrip s) = rstrip s.
Proof.
  induction s as [|c t IH]; simpl; [done|].
  destruct (is_empty (rstrip t) && py_space c) eqn:E; [done|].
  simpl. by rewrite IH, E.
Qed.

Lemma first_ok_lstrip s : first_ok (lstrip s) = true.
Proof.
  unfold lstrip. induction s as [|c t IH]; simpl; [done|].
  destruct (py_space c) eqn:E; [done|]. simpl. by rewrite E.
Qed.

Lemma first_ok_rstrip s : first_ok s = true → first_ok (rstrip s) = true.
Proof.
  destruct s as [|c t]; simpl; [done|]. intros H.
  apply negb_true_iff in H. rewrite H, andb_false_r. simpl. by rewrite H.
Qed.

Lemma lstrip_first_ok s : first_ok s = true → lstrip s = s.
Proof.
  destruct s as [|c t]; simpl; [done|]. intros H.
  apply negb_true_iff in H. unfold lstrip. simpl. by rewrite H.
Qed.

Lemma strip_idem s : strip (strip s) = strip s.
Proof.
  unfold strip. rewrite lstrip_first_ok.
  - apply rstrip_idem.
  - apply first_ok_rstrip, first_ok_lstrip.
Qed.

Lemma clean_fixed s : clean (clean s) = clean s.
Proof.
  unfold clean. rewrite spaced_sub_ws.
  - apply strip_idem.
  - apply spaced_strip, sub_ws_spaced.
Qed.

Lemma spaced_only_spaces b s :
  spaced_ok b s = true →
  sall (λ c, negb (re_space c) || Ascii.eqb c " ") s = true.
Proof.
  revert b. induction s as [|c t IH]; intros b; simpl; [done|].
  destruct (re_space c); simpl.
  - intros H. apply andb_true_iff in H as [H Ht].
    apply andb_true_iff in H as [Hc _]. rewrite Hc. by eapply IH.
  - by eapply IH.
Qed.

Lemma spaced_no_double b s :
  spaced_ok b s = true → contains "  " s = false.
Proof.
  revert b. induction s as [|c t IH]; intros b; [done|].
  intros H. simpl in H.
  assert (Ht : contains "  " t = false).
  { destruct (re_space c).
    - apply andb_true_iff in H as [_ Ht]. by eapply IH.
    - by eapply IH. }
  change (contains "  " (String c t))
    with (String.prefix "  " (String c t) || contains "  " t).
  rewrite Ht, orb_false_r. cbn [String.prefix].
  destruct (ascii_dec " " c) as [<-|Hc]; [|done].
  destruct t as [|c' t']; [done|]. cbn [String.prefix].
  destruct (ascii_dec " " c') as [<-|Hc']; [|done].
  cbn [spaced_ok] in H. change (re_space " ") with true in H.
  cbn [negb andb] in H. rewrite andb_false_r in H.
  destruct ((" " =? " ")%char && negb b); discriminate H.
Qed.

(** X6.  [clean] is idempotent: cleaning a cleaned text changes
    nothing. *)
Theorem clean_idempotent (s : string) : clean (clean s) = clean s.
Proof. apply clean_fixed. Qed.

(** X7.  A cleaned text has no whitespace at either end, its only
    whitespace characters are spaces, and no two spaces follow each
    other. *)
Theorem clean_normal_form (s : string) :
  strip (clean s) = clean s
  ∧ sall (λ c, negb (re_space c) || Ascii.eqb c " ") (clean s) = true
  ∧ contains "  " (clean s) = false.
Proof.
  assert (H : spaced_ok false (clean s) = true).
  { unfold clean. apply spaced_strip, sub_ws_spaced. }
  split; [apply strip_idem|]. split.
  - by eapply spaced_only_spaces.
  - by eapply spaced_no_double.
Qed.

(** ** Letter case *)

Section CharMap.

(** A character map that keeps the whitespace classes and the space. *)
Variable f : ascii → ascii.
Hypothesis f_re : ∀ c, re_space (f c) = re_space c.
Hypothesis f_py : ∀ c, py_space (f c) = py_space c.
Hypothesis f_sp : f " " = " "%char.

Lemma sub_ws_smap b s : sub_ws b (smap f s) = smap f (sub_ws b s).
Proof using f_re f_sp.
  revert b. induction s as [|c t IH]; intros b; simpl; [done|].
  rewrite f_re. destruct (re_space c).
  - destruct b; simpl; by rewrite IH, ?f_sp.
  - simpl. by rewrite IH.
Qed.

Lemma lstrip_smap s : lstrip (smap f s) = smap f (lstrip s).
Proof using f_py.
  unfold lstrip. induction s as [|c t IH]; simpl; [done|].
  rewrite f_py. by destruct (py_space c).
Qed.

Lemma rstrip_smap s : rstrip (smap f s) = smap f (rstrip s).
Proof using f_py.
  induction s as [|c t IH]; simpl; [done|].
  rewrite IH, f_py.
  replace (is_empty (smap f (rstrip t))) with (is_empty (rstrip t))
    by (by destruct (rstrip t)).
  by destruct (is_empty (rstrip t) && py_space c).
Qed.

Lemma clean_smap s : clean (smap f s) = smap f (clean s).
Proof using f_re f_py f_sp.
  unfold clean, strip. by rewrite sub_ws_smap, lstrip_smap, rstrip_smap.
Qed.

End CharMap.

Lemma upper_char_classes c :
  re_space (upper_char c) = re_space c
  ∧ py_space (upper_char c) = py_space c
  ∧ upper_char (upper_char c) = upper_char c
  ∧ upper_char (lower_char c) = upper_char c
  ∧ lower_char (upper_char c) = lower_char c
  ∧ lower_char (lower_char c) = lower_char c.
Proof. destruct c as [[] [] [] [] [] [] [] []]; vm_compute; done. Qed.

Lemma smap_smap f g s : smap f (smap g s) = smap (λ c, f (g c)) s.
Proof. induction s as [|c t IH]; simpl; [done|]. by rewrite IH. Qed.

Lemma smap_ext f g s : (∀ c, f c = g c) → smap f s = smap g s.
Proof. intros H. induction s as [|c t IH]; simpl; [done|]. by rewrite H, IH. Qed.

Lemma upper_upper s : upper (upper s) = upper s.
Proof.
  unfold upper. rewrite smap_smap. apply smap_ext. intros c.
  apply upper_char_classes.
Qed.

Lemma upper_lower s : upper (lower s) = upper s.
Proof.
  unfold upper, lower. rewrite smap_smap. apply smap_ext. intros c.
  apply upper_char_classes.
Qed.

Lemma lower_upper s : lower (upper s) = lower s.
Proof.
  unfold upper, lower. rewrite smap_smap. apply smap_ext. intros c.
  apply upper_char_classes.
Qed.

Lemma lower_lower s : lower (lower s) = lower s.
Proof.
  unfold lower. rewrite smap_smap. apply smap_ext. intros c.
  apply upper_char_classes.
Qed.

Lemma clean_upper s : clean (upper s) = upper (clean s).
Proof.
  unfold upper. apply clean_smap; try done; intros c; apply upper_char_classes.
Qed.

(** X8.  On a line of 7-bit text, section detection ignores letter case
    and whitespace layout: the line, the same line in upper or lower case,
    and the cleaned line are all detected alike. *)
Theorem detect_section_ignores_case_and_layout (ln : string) :
  seven_bit ln = true →
  detect_section (upper ln) = detect_section ln
  ∧ detect_section (lower ln) = detect_section ln
  ∧ detect_section (clean ln) = detect_section ln.
Proof.
  intros _. unfold detect_section. repeat split.
  - by rewrite clean_upper, upper_upper.
  - by rewrite <- !clean_upper, upper_lower.
  - by rewrite clean_fixed.
Qed.

Lemma detect_section_ignores_case_and_layout_witness :
  detect_section (upper "General  Awareness") = detect_section "General  Awareness"
  ∧ detect_section (lower "General  Awareness") = detect_section "General  Awareness"
  ∧ detect_section (clean "General  Awareness") = detect_section "General  Awareness".
Proof.
  apply (detect_section_ignores_case_and_layout "General  Awareness").
  vm_compute. reflexivity.
Defined.

(** X9.  On a question text of 7-bit characters, topic guessing ignores
    the letter case of the text. *)
Theorem guess_topic_ignores_case (subj q_text : string) :
  seven_bit q_text = true →
  guess_topic_from_text subj (upper q_text)
  = guess_topic_from_text subj q_text
  ∧ guess_topic_from_text subj (lower q_text)
    = guess_topic_from_text subj q_text.
Proof.
  intros _. unfold guess_topic_from_text. by rewrite lower_upper, lower_lower.
Qed.

Lemma guess_topic_ignores_case_witness :
  guess_topic_from_text "Quantitative Aptitude" (upper "Area of a Triangle")
  = guess_topic_from_text "Quantitative Aptitude" "Area of a Triangle"
  ∧ guess_topic_from_text "Quantitative Aptitude" (lower "Area of a Triangle")
    = guess_topic_from_text "Quantitative Aptitude" "Area of a Triangle".
Proof.
  apply (guess_topic_ignores_case "Quantitative Aptitude" "Area of a Triangle").
  vm_compute. reflexivity.
Defined.

(** ** The reader *)

Lemma read_pages_lines pno pages p t :
  (p, t) ∈ read_pages pno pages →
  clean t = t ∧ pno ≤ p < pno + Z.of_nat (length pages).
Proof.
  revert pno. induction pages as [|pg rest IH]; intros pno; simpl.
  - intros H. by apply elem_of_nil in H.
  - rewrite elem_of_app. intros [H|H].
    + apply list_elem_of_fmap in H as (u & [= -> ->] & _).
      split; [apply clean_fixed|lia].
    + apply IH in H. split; [apply H|lia].
Qed.

(** X10.  Every line [read_lines] returns is already cleaned, and its
    page index is the index of one of the pages. *)
Theorem read_lines_are_clean (pages : list (option string)) p t :
  (p, t) ∈ read_lines pages →
  clean t = t ∧ 0 ≤ p < Z.of_nat (length pages).
Proof. intros H. by apply read_pages_lines in H. Qed.

Lemma read_lines_are_clean_witness :
  (0, "1. x") ∈ read_lines [Some " 1.   x "]
  ∧ clean "1. x" = "1. x"
  ∧ 0 ≤ 0 < Z.of_nat (length [Some " 1.   x "]).
Proof.
  assert (H : (0, "1. x") ∈ read_lines [Some " 1.   x "]).
  { vm_compute. apply list_elem_of_here. }
  split; [exact H|].
  exact (read_lines_are_clean [Some " 1.   x "] 0 "1. x" H).
Defined.

(** ** The answer map *)

Local Set Warnings "-clear-no-such-hyp".

Lemma pa_while_run lines fuel st :
  (length lines ≤ pa_i st + fuel)%nat →
  pa_while fuel lines st = Some (pa_run st (drop (pa_i st) lines)).
Proof.
  revert st. induction fuel as [|fuel IH]; intros st Hlen; simpl.
  - rewrite lookup_ge_None_2 by lia. by rewrite drop_ge by lia.
  - destruct (lines !! pa_i st) as [[p txt]|] eqn:E.
    + rewrite IH by (rewrite pa_body_advances; lia).
      rewrite pa_body_advances. by rewrite (drop_S _ _ _ E).
    + apply lookup_ge_None_1 in E. by rewrite drop_ge by lia.
Qed.

Lemma parse_answers_run lines :
  parse_answers lines
  = match find_marker 0 lines with
    | Some idx => pa_final (pa_run (pa_init idx) (drop (S idx) lines))
    | None => ∅
    end.
Proof.
  unfold parse_answers, parse_answers_fuel.
  destruct (find_marker 0 lines) as [idx|]; [|done].
  rewrite pa_while_run by (simpl; lia). done.
Qed.

Lemma pa_run_invariant (P : pa_state → Prop) ls st :
  (∀ txt s, P s → P (pa_body txt s)) → P st → P (pa_run st ls).
Proof.
  intros Hstep. unfold pa_run. revert st.
  induction ls as [|l ls IH]; intros st H; simpl; [done|].
  apply IH, Hstep, H.
Qed.

Lemma ans_line_groups txt g1 g2 :
  ANS_LINE_RE_match txt = Some (g1, g2) →
  0 ≤ int_of g1 ≤ 999 ∧ is_letter (upper g2).
Proof.
  unfold ANS_LINE_RE_match. intros H.
  apply bind_Some in H as ([ds r] & E & H). cbv beta iota in H.
  apply bind_Some in H as (r1 & _ & H).
  apply bind_Some in H as (r2 & _ & H).
  destruct (drop_while re_space r2) as [|c r3]; [discriminate|].
  destruct (is_abcd c) eqn:Ec; [|discriminate].
  destruct (sall re_space r3); [|discriminate]. simpl in H.
  injection H as <- <-.
  destruct (match_num13_digits _ _ _ E) as [Hd Hl]. split.
  - apply int_of_small; [done|lia].
  - by apply is_abcd_upper.
Qed.

Lemma pa_branch_answer txt st g1 g2 :
  pa_branch_of txt st = BrAnswer g1 g2 →
  ANS_LINE_RE_match txt = Some (g1, g2).
Proof.
  unfold pa_branch_of.
  destruct (ANS_LINE_RE_match txt) as [[a b]|]; [congruence|].
  destruct (EXPL_HDR_RE_match txt); [discriminate|].
  destruct (pa_collecting st); [|discriminate].
  by destruct (bool_decide _).
Qed.

Lemma pa_branch_other txt st :
  ANS_LINE_RE_match txt = None →
  ∀ g1 g2, pa_branch_of txt st ≠ BrAnswer g1 g2.
Proof.
  intros H g1 g2 Hb. apply pa_branch_answer in Hb. congruence.
Qed.

Lemma pa_ok_body txt st : pa_ok st → pa_ok (pa_body txt st).
Proof.
  intros [Hm Hq]. unfold pa_body.
  destruct (pa_branch_of txt st) as [g1 g2| | | |] eqn:Eb;
    try (split; [exact Hm|exact Hq]).
  apply pa_branch_answer, ans_line_groups in Eb as [Hn Hl].
  split; simpl.
  - destruct (pa_current_q st) as [q|] eqn:Eq; [|done].
    destruct (Hq q eq_refl) as [Hq1 Hq2].
    apply map_Forall_insert_2; [|done].
    split; [done|]. split; [done|]. simpl. apply clean_fixed.
  - by intros q [= <-].
Qed.

Lemma pa_ok_init idx : pa_ok (pa_init idx).
Proof. split; [apply map_Forall_empty|]. by intros q. Qed.

Lemma pa_ok_final st : pa_ok st → map_Forall entry_ok (pa_final st).
Proof.
  intros [Hm Hq]. unfold pa_final.
  destruct (pa_current_q st) as [q|] eqn:Eq; [|done].
  destruct (pa_ans_map st !! q); [done|].
  destruct (Hq q eq_refl) as [Hq1 Hq2].
  apply map_Forall_insert_2; [|done].
  split; [done|]. split; [done|]. simpl. apply clean_fixed.
Qed.

Lemma parse_answers_entries lines : map_Forall entry_ok (parse_answers lines).
Proof.
  rewrite parse_answers_run.
  destruct (find_marker 0 lines) as [idx|]; [|apply map_Forall_empty].
  apply pa_ok_final, pa_run_invariant; [|apply pa_ok_init].
  intros txt s. apply pa_ok_body.
Qed.

(** X11.  Every entry of the answer map has a number between 0 and 999,
    one of the letters A, B, C, D in upper case, and a cleaned
    explanation. *)
Theorem answer_entries_well_formed (lines : list line) n a e :
  parse_answers lines !! n = Some (a, e) →
  0 ≤ n ≤ 999 ∧ a ∈ ["A"; "B"; "C"; "D"] ∧ clean e = e.
Proof. intros H. by apply (parse_answers_entries lines) in H. Qed.

Lemma answer_entries_well_formed_witness :
  parse_answers scenario_lines !! 1 = Some ("B", "Basic arithmetic.")
  ∧ 0 ≤ 1 ≤ 999 ∧ "B" ∈ ["A"; "B"; "C"; "D"]
  ∧ clean "Basic arithmetic." = "Basic arithmetic.".
Proof.
  assert (H : parse_answers scenario_lines !! 1
              = Some ("B", "Basic arithmetic."))
    by (vm_compute; reflexivity).
  split; [exact H|].
  exact (answer_entries_well_formed scenario_lines 1 _ _ H).
Defined.

(** X12.  The answer and the explanation of every record of a run are
    well formed: the answer is empty or one of A, B, C, D, and the
    explanation is a cleaned text. *)
Theorem record_answer_well_formed (lines : list line) r :
  r ∈ (pipeline lines).2 →
  (answer r = "" ∨ answer r ∈ ["A"; "B"; "C"; "D"])
  ∧ clean (explanation_en r) = explanation_en r.
Proof.
  unfold pipeline. simpl. rewrite parse_questions_unfold. intros Hr.
  apply list_elem_of_fmap in Hr as (s & -> & _). simpl.
  destruct (parse_answers lines !! int_of (seg_num s)) as [[a e]|] eqn:E.
  - apply (parse_answers_entries lines) in E as (_ & Ha & He).
    simpl in *. split; [by right|done].
  - simpl. split; [by left|done].
Qed.

Lemma record_answer_well_formed_witness :
  scenario_record ∈ (pipeline scenario_lines).2
  ∧ (answer scenario_record = ""
     ∨ answer scenario_record ∈ ["A"; "B"; "C"; "D"])
  ∧ clean (explanation_en scenario_record) = explanation_en scenario_record.
Proof.
  assert (H : scenario_record ∈ (pipeline scenario_lines).2).
  { vm_compute. apply list_elem_of_here. }
  split; [exact H|].
  exact (record_answer_well_formed scenario_lines scenario_record H).
Defined.

Lemma pa_seen_body txt st :
  pa_seen (pa_body txt st)
  = pa_seen st ∪ list_to_set (answer_numbers [(0, txt)]).
Proof.
  unfold answer_numbers, pa_body. simpl.
  destruct (pa_branch_of txt st) as [g1 g2| | | |] eqn:Eb.
  - rewrite (pa_branch_answer _ _ _ _ Eb). unfold pa_seen, commit. simpl.
    destruct (pa_current_q st) as [q|]; [rewrite dom_insert_L|]; set_solver.
  - assert (ANS_LINE_RE_match txt = None) as ->; [|simpl; set_solver].
    unfold pa_branch_of in Eb. by destruct (ANS_LINE_RE_match txt) as [[a b]|].
  - by apply pa_branch_not_stall in Eb.
  - assert (ANS_LINE_RE_match txt = None) as ->;
      [|unfold pa_seen; simpl; set_solver].
    unfold pa_branch_of in Eb. by destruct (ANS_LINE_RE_match txt) as [[a b]|].
  - assert (ANS_LINE_RE_match txt = None) as ->;
      [|unfold pa_seen; simpl; set_solver].
    unfold pa_branch_of in Eb. by destruct (ANS_LINE_RE_match txt) as [[a b]|].
Qed.

Lemma answer_numbers_cons l ls :
  answer_numbers (l :: ls) = answer_numbers [(0, l.2)] ++ answer_numbers ls.
Proof.
  unfold answer_numbers. simpl. by destruct (ANS_LINE_RE_match l.2).
Qed.

Lemma pa_seen_run ls st :
  pa_seen (pa_run st ls) = pa_seen st ∪ list_to_set (answer_numbers ls).
Proof.
  unfold pa_run. revert st.
  induction ls as [|l ls IH]; intros st.
  - unfold answer_numbers. simpl. set_solver.
  - cbn [fold_left].
    rewrite IH, pa_seen_body, (answer_numbers_cons l ls), list_to_set_app_L.
    set_solver.
Qed.

Lemma pa_final_dom st : dom (pa_final st) = pa_seen st.
Proof.
  unfold pa_final, pa_seen, commit.
  destruct (pa_current_q st) as [q|]; [|set_solver].
  destruct (pa_ans_map st !! q) eqn:E.
  - assert (q ∈ dom (pa_ans_map st)) by (apply elem_of_dom; eauto).
    set_solver.
  - rewrite dom_insert_L. set_solver.
Qed.

(** X13.  The numbers that have an entry in the answer map are exactly
    the numbers of the answer lines after the first answer-section
    marker. *)
Theorem answer_map_domain (lines : list line) n :
  n ∈ dom (parse_answers lines) ↔ n ∈ answer_numbers (after_marker lines).
Proof.
  rewrite parse_answers_run. unfold after_marker.
  destruct (find_marker 0 lines) as [idx|].
  - rewrite pa_final_dom, pa_seen_run. unfold pa_seen. simpl.
    rewrite elem_of_union, elem_of_list_to_set. set_solver.
  - rewrite dom_empty_L. set_solver.
Qed.

(** ** The answer section and the marker *)

Lemma pa_body_set_i k txt st :
  pa_body txt (pa_set_i k st) = pa_set_i (S k) (pa_body txt st).
Proof.
  unfold pa_body.
  change (pa_branch_of txt (pa_set_i k st)) with (pa_branch_of txt st).
  destruct (pa_branch_of txt st) eqn:Eb; try reflexivity.
  by apply pa_branch_not_stall in Eb.
Qed.

Lemma pa_run_set_i ls k st :
  pa_run (pa_set_i k st) ls = pa_set_i (k + length ls) (pa_run st ls).
Proof.
  unfold pa_run. revert k st.
  induction ls as [|l ls IH]; intros k st; cbn [fold_left length].
  - by rewrite Nat.add_0_r.
  - rewrite pa_body_set_i, IH. f_equal. lia.
Qed.

Lemma pa_final_from ls idx :
  pa_final (pa_run (pa_init idx) ls) = pa_final (pa_run (pa_init 0) ls).
Proof.
  change (pa_init idx) with (pa_set_i (S idx) (pa_init 0)).
  by rewrite pa_run_set_i.
Qed.

Lemma find_marker_first pre m rest i :
  Forall (λ l : line, is_marker l.2 = false) pre → is_marker m.2 = true →
  find_marker i (pre ++ m :: rest) = Some (i + length pre)%nat.
Proof.
  intros Hpre Hm. revert i.
  induction Hpre as [|[p t] pre Hx _ IH]; intros i; simpl.
  - destruct m as [p t]. unfold is_marker in Hm. simpl in Hm.
    rewrite Hm. f_equal. lia.
  - unfold is_marker in Hx. simpl in Hx. rewrite Hx, IH. f_equal. lia.
Qed.

(** X14.  The answer map depends only on the lines after the first
    answer-section marker: what stands in front of the marker does not
    change it. *)
Theorem answers_ignore_lines_before_marker (pre rest : list line) m :
  Forall (λ l : line, is_marker l.2 = false) pre → is_marker m.2 = true →
  parse_answers (pre ++ m :: rest) = parse_answers (m :: rest).
Proof.
  intros Hpre Hm. rewrite !parse_answers_run.
  rewrite (find_marker_first pre m rest 0 Hpre Hm).
  pose proof (find_marker_first [] m rest 0 (Forall_nil_2 _) Hm) as H0.
  rewrite app_nil_l in H0. rewrite H0.
  simpl. rewrite pa_final_from. f_equal. f_equal.
  rewrite (cons_middle m pre rest), app_assoc.
  replace (S (length pre)) with (length (pre ++ [m]))
    by (rewrite length_app; simpl; lia).
  by rewrite drop_app_length.
Qed.

Lemma answers_ignore_lines_before_marker_witness :
  parse_answers scenario_lines
  = parse_answers (on_page0 ["ANSWERS"; "1. Answer: B"; "Explanation:";
                             "Basic arithmetic."]).
Proof.
  apply (answers_ignore_lines_before_marker
           (on_page0 ["GENERAL AWARENESS"; "1. What is 2+2?"; "A. 3"; "B. 4";
                      "(+2,-0.5)"])
           (on_page0 ["1. Answer: B"; "Explanation:"; "Basic arithmetic."])
           (0, "ANSWERS")).
  - unfold on_page0. simpl.
    repeat (constructor; [vm_compute; reflexivity|]). constructor.
  - vm_compute. reflexivity.
Defined.

(** ** How the line classes overlap *)

Lemma is_abcd_not_digit c : is_abcd c = true → re_digit c = false.
Proof. destruct c as [[] [] [] [] [] [] [] []]; vm_compute; congruence. Qed.

Lemma match_num13_no_digit c t :
  re_digit c = false → match_num13 (String c t) = None.
Proof. intros H. unfold match_num13. simpl. by rewrite H. Qed.

(** X15.  An option line is never a question-start line and never an
    answer line: the order in which the loops test these patterns cannot
    change how such a line is read. *)
Theorem option_line_is_no_start (txt : string) :
  is_Some (OPTION_RE_match txt) →
  QNUM_RE_match txt = None ∧ ANS_LINE_RE_match txt = None.
Proof.
  intros [g Hg]. destruct (option_match_first _ _ Hg) as (c & t & -> & Hc).
  destruct (is_abcd_not_space _ Hc) as [_ Hr].
  pose proof (match_num13_no_digit c t (is_abcd_not_digit _ Hc)) as Hn.
  split.
  - unfold QNUM_RE_match. by rewrite Hn.
  - unfold ANS_LINE_RE_match. simpl drop_while. rewrite Hr. by rewrite Hn.
Qed.

Lemma option_line_is_no_start_witness :
  QNUM_RE_match "A. 3" = None ∧ ANS_LINE_RE_match "A. 3" = None.
Proof.
  apply (option_line_is_no_start "A. 3"). vm_compute. eauto.
Defined.

Lemma clean_fixed_first t : clean t = t → drop_while re_space t = t.
Proof.
  intros H.
  assert (Hf : first_ok t = true).
  { rewrite <- H. unfold clean, strip. apply first_ok_rstrip, first_ok_lstrip. }
  destruct t as [|c t']; [done|]. simpl in *.
  apply negb_true_iff in Hf. unfold py_space in Hf.
  apply orb_false_iff in Hf as [Hf _]. by rewrite Hf.
Qed.

(** X16.  In a cleaned document every answer line that is not a section
    header is a question-start line for the segmenter: it closes the
    question in progress and opens a question with the answer line's
    number and no options. *)
Theorem answer_line_starts_question ans_map src (st : seg_state) txt g1 g2 :
  ANS_LINE_RE_match txt = Some (g1, g2) →
  clean txt = txt →
  detect_section txt = None →
  is_qstart txt = true
  ∧ questions (seg_step ans_map src st txt) = flush ans_map src st
  ∧ current_qnum (seg_step ans_map src st txt) = Some (int_of g1)
  ∧ current_opts (seg_step ans_map src st txt) = [].
Proof.
  intros Ha Hc Hs. unfold ANS_LINE_RE_match in Ha.
  rewrite (clean_fixed_first _ Hc) in Ha.
  apply bind_Some in Ha as ([ds r] & E & Ha). cbv beta iota in Ha.
  assert (ds = g1) as ->.
  { apply bind_Some in Ha as (r1 & _ & Ha).
    apply bind_Some in Ha as (r2 & _ & Ha).
    destruct (drop_while re_space r2) as [|c r3]; [discriminate|].
    destruct (is_abcd c && sall re_space r3); [|discriminate]. congruence. }
  assert (Hq : QNUM_RE_match txt
               = Some (g1, take_while re_dot (drop_while re_space r))).
  { unfold QNUM_RE_match. by rewrite E. }
  split.
  - unfold is_qstart. apply bool_decide_eq_true_2. rewrite Hq. eauto.
  - unfold seg_step. by rewrite Hs, Hq.
Qed.

Lemma answer_line_starts_question_witness :
  is_qstart "1. Answer: B" = true
  ∧ questions (seg_step ∅ "" seg_init "1. Answer: B") = flush ∅ "" seg_init
  ∧ current_qnum (seg_step ∅ "" seg_init "1. Answer: B") = Some (int_of "1")
  ∧ current_opts (seg_step ∅ "" seg_init "1. Answer: B") = [].
Proof.
  apply (answer_line_starts_question ∅ "" seg_init "1. Answer: B" "1" "B");
    vm_compute; reflexivity.
Defined.

Lemma upper_A_not_digit c :
  upper_char c = "A"%char → re_digit c = false.
Proof. destruct c as [[] [] [] [] [] [] [] []]; vm_compute; congruence. Qed.

Lemma upper_N_no_separator c :
  upper_char c = "N"%char →
  Ascii.eqb c "." || Ascii.eqb c ")" || re_space c = false.
Proof. destruct c as [[] [] [] [] [] [] [] []]; vm_compute; congruence. Qed.

Lemma marker_shape txt :
  is_marker txt = true →
  ∃ c0 c1 t, txt = String c0 (String c1 t)
             ∧ upper_char c0 = "A"%char ∧ upper_char c1 = "N"%char.
Proof.
  unfold is_marker, startswith, upper.
  destruct txt as [|c0 [|c1 t]]; cbn [smap String.prefix]; try discriminate.
  - by destruct (ascii_dec "A" (upper_char c0)).
  - destruct (ascii_dec "A" (upper_char c0)) as [H0|]; [|discriminate].
    destruct (ascii_dec "N" (upper_char c1)) as [H1|]; [|discriminate].
    intros _. by exists c0, c1, t.
Qed.

(** X17.  An answer-section marker line that is not a section header
    changes nothing in the segmenter: it starts no question, is no option
    and is never appended to a question's text. *)
Theorem marker_line_changes_nothing ans_map src (st : seg_state) txt :
  is_marker txt = true →
  detect_section txt = None →
  seg_step ans_map src st txt = st.
Proof.
  intros Hm Hs.
  destruct (marker_shape _ Hm) as (c0 & c1 & t & -> & H0 & H1).
  assert (Hq : QNUM_RE_match (String c0 (String c1 t)) = None).
  { unfold QNUM_RE_match.
    by rewrite (match_num13_no_digit _ _ (upper_A_not_digit _ H0)). }
  assert (Ho : OPTION_RE_match (String c0 (String c1 t)) = None).
  { unfold OPTION_RE_match. rewrite (upper_N_no_separator _ H1).
    by rewrite andb_false_r. }
  unfold seg_step. rewrite Hs, Hq, Ho.
  destruct (current_qnum st); [|done].
  destruct (MARKS_RE_search _); [done|].
  unfold is_marker in Hm. rewrite Hm. simpl. done.
Qed.

Lemma marker_line_changes_nothing_witness :
  seg_step ∅ "" (seg_step ∅ "" seg_init "1. What is 2+2?") "ANSWERS"
  = seg_step ∅ "" seg_init "1. What is 2+2?".
Proof.
  apply (marker_line_changes_nothing ∅ ""
           (seg_step ∅ "" seg_init "1. What is 2+2?") "ANSWERS");
    vm_compute; reflexivity.
Defined.

(** ** Identifiers, topics and the source label *)

Lemma id_of_small n :
  0 ≤ n ≤ 999 →
  String.length ("SSC-CGL-2024-Shift-1-Q" +:+ format_03d n) = 25%nat
  ∧ int_of (substring 22 3 ("SSC-CGL-2024-Shift-1-Q" +:+ format_03d n)) = n.
Proof.
  intros Hn.
  assert (Hall : forallb (λ k : nat,
            let s := "SSC-CGL-2024-Shift-1-Q" +:+ format_03d (Z.of_nat k) in
            Nat.eqb (String.length s) 25
            && Z.eqb (int_of (substring 22 3 s)) (Z.of_nat k))
            (seq 0 1000) = true) by (vm_compute; reflexivity).
  rewrite forallb_forall in Hall.
  specialize (Hall (Z.to_nat n)).
  rewrite Z2Nat.id in Hall by lia.
  assert (Hin : In (Z.to_nat n) (seq 0 1000)) by (apply in_seq; lia).
  apply Hall, andb_true_iff in Hin as [H1 H2].
  apply Nat.eqb_eq in H1. apply Z.eqb_eq in H2. done.
Qed.

(** X18.  Every identifier is 25 characters long, and its last three
    characters read as a decimal number give back the record's number;
    so two records have the same identifier exactly when they have the
    same number. *)
Theorem id_decodes_to_number (lines : list line) ans_map r :
  r ∈ parse_questions lines ans_map →
  String.length (q_id r) = 25%nat
  ∧ int_of (substring 22 3 (q_id r)) = qnum r.
Proof.
  intros Hr.
  destruct (parse_questions_shape _ _ _ Hr)
    as (pre & qline & seg & post & g1 & g2 & subj & _ & _ & Hq & _ & _ & ->).
  destruct (QNUM_RE_match_digits _ _ _ Hq) as [Hd Hl].
  simpl. apply id_of_small, int_of_small; [done|lia].
Qed.

Lemma id_decodes_to_number_witness :
  scenario_record ∈ parse_questions scenario_lines (parse_answers scenario_lines)
  ∧ String.length (q_id scenario_record) = 25%nat
  ∧ int_of (substring 22 3 (q_id scenario_record)) = qnum scenario_record.
Proof.
  assert (H : scenario_record
              ∈ parse_questions scenario_lines (parse_answers scenario_lines)).
  { vm_compute. apply list_elem_of_here. }
  split; [exact H|].
  exact (id_decodes_to_number scenario_lines _ scenario_record H).
Defined.

(** X19.  A record outside "Quantitative Aptitude" has its subject as
    topic and no subtopic; a subtopic, when there is one, is "Triangles"
    under the topic "Geometry" of "Quantitative Aptitude"; the topic is
    always the subject or one of the three quantitative topics. *)
Theorem record_topic_range (lines : list line) ans_map r :
  r ∈ parse_questions lines ans_map →
  (subject r ≠ "Quantitative Aptitude" →
   topic r = subject r ∧ subtopic r = None)
  ∧ (∀ s, subtopic r = Some s →
          s = "Triangles" ∧ topic r = "Geometry"
          ∧ subject r = "Quantitative Aptitude")
  ∧ topic r ∈ [subject r; "Geometry"; "Averages"; "Ratio & Proportion"].
Proof.
  rewrite parse_questions_unfold. intros Hr.
  apply list_elem_of_fmap in Hr as (s & -> & _).
  unfold record_of, question_of, make_question. simpl.
  unfold guess_topic_from_text.
  destruct (String.eqb_spec (default "General" (seg_subject s))
              "Quantitative Aptitude") as [He|He].
  - repeat (destruct (contains _ _); simpl;
            [split; [done|]; split; [intros ? [= <-] || intros ? [=] |];
             try done; set_solver|]).
    split; [done|]. split; [by intros ? [=]|]. set_solver.
  - simpl. split; [done|]. split; [by intros ? [=]|]. set_solver.
Qed.

Lemma record_topic_range_witness :
  unanswered_record
    ∈ parse_questions unanswered_lines (parse_answers unanswered_lines)
  ∧ topic unanswered_record
    ∈ [subject unanswered_record; "Geometry"; "Averages"; "Ratio & Proportion"].
Proof.
  assert (H : unanswered_record
              ∈ parse_questions unanswered_lines
                  (parse_answers unanswered_lines)).
  { vm_compute. apply list_elem_of_here. }
  split; [exact H|].
  exact (proj2 (proj2 (record_topic_range unanswered_lines _ _ H))).
Defined.

Lemma eat_ci_prefix lit s r :
  eat_ci lit s = Some r → String.prefix (lower lit) (lower s) = true.
Proof.
  revert s. induction lit as [|a lit IH]; intros s;
    [intros _; by destruct s|].
  destruct s as [|c s']; [discriminate|].
  cbn [eat_ci lower smap String.prefix].
  destruct (Ascii.eqb_spec (lower_char c) (lower_char a)) as [He|He];
    [|discriminate].
  intros H. rewrite He.
  destruct (ascii_dec (lower_char a) (lower_char a)); [|done].
  by apply IH.
Qed.

Lemma source_at_needs_ssc s :
  String.prefix "ssc" (lower s) = false → source_at s = None.
Proof.
  intros H. unfold source_at.
  destruct (eat_ci "SSC" s) as [r|] eqn:E; [|done].
  apply eat_ci_prefix in E.
  change (lower "SSC") with "ssc" in E. congruence.
Qed.

Lemma source_search_needs_ssc s :
  contains "ssc" (lower s) = false → source_search s = None.
Proof.
  induction s as [|c t IH]; intros H.
  - reflexivity.
  - change (lower (String c t)) with (String (lower_char c) (lower t)) in H.
    change (contains "ssc" (String (lower_char c) (lower t)))
      with (String.prefix "ssc" (String (lower_char c) (lower t))
            || contains "ssc" (lower t)) in H.
    apply orb_false_iff in H as [Hp Ht].
    cbn [source_search]. rewrite source_at_needs_ssc by exact Hp.
    by apply IH.
Qed.

(** X20.  When the text of the first two pages is 7-bit text and does
    not contain "ssc" in any letter case, the source label is the fallback
    "SSC CGL Question Paper". *)
Theorem source_header_fallback (pages_text : list string) :
  seven_bit (join nl (take 2 pages_text)) = true →
  contains "ssc" (lower (join nl (take 2 pages_text))) = false →
  extract_source_header pages_text = "SSC CGL Question Paper".
Proof.
  intros _ H. unfold extract_source_header.
  by rewrite source_search_needs_ssc.
Qed.

Lemma source_header_fallback_witness :
  extract_source_header ["Question paper"; "page two"]
  = "SSC CGL Question Paper".
Proof.
  apply (source_header_fallback ["Question paper"; "page two"]);
    vm_compute; reflexivity.
Defined.

(** ** The dicts written by main *)

Lemma values_at_strings k (l : list string) :
  values_at k (JArr (JStr <$> l)) = [].
Proof. induction l as [|x l IH]; [done|]. simpl in *. exact IH. Qed.

Lemma values_at_options k (l : list string) :
  k = "hi" ∨ k = "image" →
  Forall (λ v, v = JStr "")
    (values_at k (JArr (option_to_dict <$> (option_of <$> l)))).
Proof.
  intros Hk. induction l as [|t l IH]; [constructor|].
  change (values_at k (JArr (option_to_dict <$> (option_of <$> t :: l))))
    with (values_at k (option_to_dict (option_of t))
          ++ values_at k (JArr (option_to_dict <$> (option_of <$> l)))).
  apply Forall_app. split; [|exact IH].
  destruct Hk as [-> | ->]; vm_compute; by repeat constructor.
Qed.

Lemma values_at_options_none k (l : list string) :
  k = "assets" ∨ k = "difficulty" →
  values_at k (JArr (option_to_dict <$> (option_of <$> l))) = [].
Proof.
  intros Hk. induction l as [|t l IH]; [done|].
  change (values_at k (JArr (option_to_dict <$> (option_of <$> t :: l))))
    with (values_at k (option_to_dict (option_of t))
          ++ values_at k (JArr (option_to_dict <$> (option_of <$> l)))).
  rewrite IH. by destruct Hk as [-> | ->].
Qed.

Lemma to_dict_record_of ans_map src s :
  Forall (λ v, v = JStr "")
    (values_at "hi" (to_dict (record_of ans_map src s))
     ++ values_at "image" (to_dict (record_of ans_map src s)))
  ∧ values_at "assets" (to_dict (record_of ans_map src s)) = [JArr []]
  ∧ values_at "difficulty" (to_dict (record_of ans_map src s))
    = [JStr "medium"].
Proof.
  unfold to_dict. cbn [values_at flat_map String.eqb Ascii.eqb Bool.eqb app].
  cbn [record_of question_of make_question q_hi q_image explanation_hi
       explanation_image assets difficulty options tags subtopic
       current_opts fmap list_fmap].
  set (opts := option_of <$> option_lines (seg_body s)).
  pose proof (values_at_options "hi" (option_lines (seg_body s)) (or_introl eq_refl)) as Hh.
  pose proof (values_at_options "image" (option_lines (seg_body s)) (or_intror eq_refl)) as Hi.
  pose proof (values_at_options_none "assets" (option_lines (seg_body s)) (or_introl eq_refl)) as Ha.
  pose proof (values_at_options_none "difficulty" (option_lines (seg_body s)) (or_intror eq_refl)) as Hd.
  cbn [values_at] in Hh, Hi, Ha, Hd. fold opts in Hh, Hi, Ha, Hd.
  rewrite Ha, Hd.
  destruct (guess_topic_from_text _ _).2; cbn [values_at flat_map app].
  all: split; [|split; reflexivity].
  all: repeat match goal with
              | |- Forall _ (_ ++ _) => apply Forall_app_2
              | |- Forall _ (_ :: _) => constructor; [reflexivity|]
              | |- Forall _ [] => constructor
              | |- _ => assumption
              end.
Qed.

(** X21.  In every dict [main] writes, every "hi" value and every "image"
    value (of the question, of each option and of the explanation) is the
    empty string, "assets" is the empty list and "difficulty" is
    "medium". *)
Theorem written_dicts_placeholders (pages : list (option string)) d :
  d ∈ main_dicts pages →
  Forall (λ v, v = JStr "") (values_at "hi" d ++ values_at "image" d)
  ∧ values_at "assets" d = [JArr []]
  ∧ values_at "difficulty" d = [JStr "medium"].
Proof.
  unfold main_dicts. cbv zeta. rewrite parse_questions_unfold.
  rewrite <- list_fmap_compose. intros Hd.
  apply list_elem_of_fmap in Hd as (s & -> & _).
  apply to_dict_record_of.
Qed.

Lemma written_dicts_placeholders_witness :
  let d := default JNull (head (main_dicts [Some "1. x"; Some "A. 3"])) in
  Forall (λ v, v = JStr "") (values_at "hi" d ++ values_at "image" d)
  ∧ values_at "assets" d = [JArr []]
  ∧ values_at "difficulty" d = [JStr "medium"].
Proof.
  apply (written_dicts_placeholders [Some "1. x"; Some "A. 3"]).
  vm_compute. apply list_elem_of_here.
Defined.

(** ** Cleaned lines and cleaned fields *)

Lemma take_drop_while p s : take_while p s +:+ drop_while p s = s.
Proof.
  induction s as [|c t IH]; simpl; [done|].
  destruct (p c); [|done].
  change (String c (take_while p t +:+ drop_while p t) = String c t).
  by rewrite IH.
Qed.

Lemma match_num13_split s ds r :
  match_num13 s = Some (ds, r) → s = ds +:+ "." +:+ r.
Proof.
  unfold match_num13. destruct (_ && _); [|discriminate].
  intros H. apply bind_Some in H as (r' & Hr & [= <- <-]).
  rewrite <- (take_drop_while re_digit s) at 1. f_equal.
  unfold eat_char in Hr.
  destruct (drop_while re_digit s) as [|c u]; [discriminate|].
  destruct (Ascii.eqb_spec c ".") as [->|]; [|discriminate].
  by injection Hr as ->.
Qed.

Lemma sall_impl (p q : ascii → bool) s :
  (∀ c, p c = true → q c = true) → sall p s = true → sall q s = true.
Proof.
  intros Hpq. induction s as [|c t IH]; simpl; [done|].
  intros H. apply andb_true_iff in H as [Hc Ht].
  by rewrite (Hpq _ Hc), IH.
Qed.

Lemma sall_drop_while p q s :
  sall p s = true → sall p (drop_while q s) = true.
Proof.
  induction s as [|c t IH]; simpl; [done|].
  intros H. destruct (q c); [|done].
  apply andb_true_iff in H as [_ Ht]. by apply IH.
Qed.

Lemma sall_app_r p a b : sall p (a +:+ b) = true → sall p b = true.
Proof.
  induction a as [|c a IH]; simpl; [done|].
  intros H. apply andb_true_iff in H as [_ Ht]. by apply IH.
Qed.

Lemma take_while_all_id p s : sall p s = true → take_while p s = s.
Proof.
  induction s as [|c t IH]; simpl; [done|].
  intros H. apply andb_true_iff in H as [Hc Ht]. by rewrite Hc, IH.
Qed.

Lemma single_space_is_dot c :
  negb (re_space c) || Ascii.eqb c " " = true → re_dot c = true.
Proof. destruct c as [[] [] [] [] [] [] [] []]; vm_compute; congruence. Qed.

Lemma clean_fixed_no_newline t : clean t = t → sall re_dot t = true.
Proof.
  intros H. eapply sall_impl; [apply single_space_is_dot|].
  rewrite <- H. apply (spaced_only_spaces false).
  unfold clean. apply spaced_strip, sub_ws_spaced.
Qed.

(** X22.  On a cleaned line the question-start pattern loses no text:
    the line is the number, the period, a stretch of whitespace and the
    captured opening text of the question. *)
Theorem question_start_keeps_text (txt g1 g2 : string) :
  clean txt = txt →
  QNUM_RE_match txt = Some (g1, g2) →
  ∃ sp, txt = g1 +:+ "." +:+ sp +:+ g2 ∧ sall re_space sp = true.
Proof.
  intros Hc Hq. unfold QNUM_RE_match in Hq.
  apply bind_Some in Hq as ([ds r] & E & Hq). cbv beta iota in Hq.
  injection Hq as <- <-.
  pose proof (match_num13_split _ _ _ E) as Ht.
  assert (Hr : sall re_dot (drop_while re_space r) = true).
  { apply sall_drop_while.
    apply (sall_app_r re_dot (String "." EmptyString)).
    apply (sall_app_r re_dot ds).
    change (String "." "" +:+ r) with ("." +:+ r).
    rewrite <- Ht. by apply clean_fixed_no_newline. }
  exists (take_while re_space r). split; [|apply take_while_all].
  rewrite (take_while_all_id _ _ Hr), take_drop_while. exact Ht.
Qed.

Lemma question_start_keeps_text_witness :
  ∃ sp, "1. What is 2+2?" = "1" +:+ "." +:+ sp +:+ "What is 2+2?"
        ∧ sall re_space sp = true.
Proof.
  apply (question_start_keeps_text "1. What is 2+2?" "1" "What is 2+2?");
    vm_compute; reflexivity.
Defined.

Lemma extract_source_header_clean ps :
  clean (extract_source_header ps) = extract_source_header ps.
Proof.
  unfold extract_source_header.
  destruct (source_search _); [apply clean_fixed|].
  vm_compute. reflexivity.
Qed.

(** X23.  The text fields a record gets from the segmenter are cleaned
    texts: the question text, the text of every option and the source
    label. *)
Theorem record_texts_are_clean (lines : list line) ans_map r :
  r ∈ parse_questions lines ans_map →
  clean (q_en r) = q_en r
  ∧ Forall (λ o, clean (en o) = en o) (options r)
  ∧ clean (source r) = source r.
Proof.
  rewrite parse_questions_unfold. intros Hr.
  apply list_elem_of_fmap in Hr as (s & -> & _).
  split; [apply clean_fixed|]. split.
  - simpl. apply Forall_fmap, Forall_forall. intros t _. apply clean_fixed.
  - apply extract_source_header_clean.
Qed.

Lemma record_texts_are_clean_witness :
  scenario_record ∈ parse_questions scenario_lines (parse_answers scenario_lines)
  ∧ clean (q_en scenario_record) = q_en scenario_record
  ∧ Forall (λ o, clean (en o) = en o) (options scenario_record)
  ∧ clean (source scenario_record) = source scenario_record.
Proof.
  assert (H : scenario_record
              ∈ parse_questions scenario_lines (parse_answers scenario_lines)).
  { vm_compute. apply list_elem_of_here. }
  split; [exact H|].
  exact (record_texts_are_clean scenario_lines _ scenario_record H).
Defined.
